(** * CineExplorer: the movies_complete denormalisation pipeline

    A shallow embedding of
    [scripts/phase2_mongodb/build_movies_complete.py]
    ([MovieCompleteBuilderFast.build_movies_complete]) and the properties
    of the composite documents it assembles and loads.

    Conventions of the embedding.
    - A MongoDB row is a Python dict.  Each relation is read through a
      fixed set of keys, so a row is a record with one field per key that
      the code reads; a field is [None] when the row lacks the key, and a
      subscript [row["k"]] on such a row raises [KeyError "k"].
    - Identifiers ([movie_id], [person_id]) are strings.  Every other
      column is copied and never inspected, so it is a [value].
    - A Python dict used as an index is a [gmap]; the per-movie cast dict,
      whose [values()] order is observable, is an insertion-ordered
      association list ([odict]).
    - The dict literals of the source ([{"person_id": .., "name": ..}],
      the complete document) are records; the [bson_of_*] functions give
      the documents they denote, key by key.
    - A run is the sequence of operations it sends to the destination
      collection; the collection is modelled with every operation
      succeeding, and failures of the store itself are outside the
      embedding.
    - Of the console output, the counts are modelled: the progress
      lines of step 9 ([insert_loop]) and the final statistics
      ([build_statistics]).  Timing, and the example document printed at
      the end, are not. *)

From Stdlib Require Import QArith_base.
From stdpp Require Import gmap strings list.

Local Open Scope string_scope.
Local Open Scope list_scope.
Local Open Scope nat_scope.
Set Warnings "-register-all".

(** ** Values and documents *)

Inductive value : Type :=
| VNull
| VInt (z : Z)
| VReal (q : Q)
| VStr (s : string)
| VList (items : list value)
| VDoc (fields : list (string * value)).

(** Key lookup in a document. *)
Fixpoint assoc_get {A} (key : string) (fields : list (string * A)) : option A :=
  match fields with
  | [] => None
  | (k, v) :: rest => if decide (k = key) then Some v else assoc_get key rest
  end.

Definition doc_get (key : string) (doc : value) : option value :=
  match doc with
  | VDoc fields => assoc_get key fields
  | _ => None
  end.

(** ** Exceptions *)

Inductive exn : Type :=
| KeyError (key : string).

Inductive result (A : Type) : Type :=
| Ok (a : A)
| Raise (e : exn).
Arguments Ok {A} a.
Arguments Raise {A} e.

#[global] Instance result_ret : MRet result := @Ok.
#[global] Instance result_bind : MBind result := λ A B f r,
  match r with
  | Ok a => f a
  | Raise e => Raise e
  end.

Definition is_ok {A} (r : result A) : Prop := ∃ a, r = Ok a.
Definition raises {A} (r : result A) : Prop := ∃ e, r = Raise e.

(** [row["key"]] on a row that may lack the key. *)
Definition getitem {A} (key : string) (field : option A) : result A :=
  match field with
  | Some a => Ok a
  | None => Raise (KeyError key)
  end.

(** [for row in rows: body], over a state that the body updates. *)
Fixpoint for_each {S R} (body : S → R → result S) (rows : list R) (st : S) : result S :=
  match rows with
  | [] => Ok st
  | row :: rest => st' ← body st row; for_each body rest st'
  end.

(** ** Insertion-ordered dicts keyed by strings *)

Abbreviation odict V := (list (string * V)) (only parsing).

Definition od_get {V} (key : string) (d : odict V) : option V := assoc_get key d.

Definition od_mem {V} (key : string) (d : odict V) : bool := bool_decide (is_Some (od_get key d)).

(** [d[key] = v]: replaces in place, or appends a new key at the end. *)
Fixpoint od_set {V} (key : string) (v : V) (d : odict V) : odict V :=
  match d with
  | [] => [(key, v)]
  | (k, w) :: rest => if decide (k = key) then (k, v) :: rest else (k, w) :: od_set key v rest
  end.

Definition od_keys {V} (d : odict V) : list string := d.*1.
Definition od_values {V} (d : odict V) : list V := d.*2.

(** ** Source relations *)

Record movie_row := {
  mv_movie_id : option string;
  mv_primary_title : option value;
  mv_start_year : option value;
  mv_runtime_minutes : option value
}.

Record rating_row := {
  rt_movie_id : option string;
  rt_average_rating : option value;
  rt_num_votes : option value
}.

Record genre_row := {
  gn_movie_id : option string;
  gn_genre : option value
}.

Record person_row := {
  ps_person_id : option string;
  ps_name : option value
}.

(** Rows of [directors], [principals] and [writers]. *)
Record credit_row := {
  cr_movie_id : option string;
  cr_person_id : option string
}.

Record character_row := {
  ch_movie_id : option string;
  ch_person_id : option string;
  ch_name : option value
}.

Record source := {
  movies : list movie_row;
  ratings : list rating_row;
  genres : list genre_row;
  persons : list person_row;
  directors : list credit_row;
  principals : list credit_row;
  characters : list character_row;
  writers : list credit_row
}.

(** ** Assembled documents *)

Record rating_doc := { average : value; votes : value }.

Record person_ref := { pr_person_id : string; pr_name : value }.

Record cast_entry := {
  ce_person_id : string;
  ce_name : value;
  ce_characters : list value
}.

Record complete_doc := {
  doc_id : string;
  doc_title : value;
  doc_year : value;
  doc_runtime : value;
  doc_rating : rating_doc;
  doc_genres : list value;
  doc_directors : list person_ref;
  doc_cast : list cast_entry;
  doc_writers : list person_ref
}.

Definition bson_of_rating (r : rating_doc) : value :=
  VDoc [("average", average r); ("votes", votes r)].

Definition bson_of_person_ref (p : person_ref) : value :=
  VDoc [("person_id", VStr (pr_person_id p)); ("name", pr_name p)].

Definition bson_of_cast_entry (e : cast_entry) : value :=
  VDoc [("person_id", VStr (ce_person_id e)); ("name", ce_name e);
        ("characters", VList (ce_characters e))].

Definition bson_of_complete_doc (d : complete_doc) : value :=
  VDoc [("_id", VStr (doc_id d));
        ("title", doc_title d);
        ("year", doc_year d);
        ("runtime", doc_runtime d);
        ("rating", bson_of_rating (doc_rating d));
        ("genres", VList (doc_genres d));
        ("directors", VList (bson_of_person_ref <$> doc_directors d));
        ("cast", VList (bson_of_cast_entry <$> doc_cast d));
        ("writers", VList (bson_of_person_ref <$> doc_writers d))].

(** ** Step 2: the rating index *)

Definition ratings_step (ratings_dict : gmap string rating_doc) (rating : rating_row)
  : result (gmap string rating_doc) :=
  avg ← getitem "average_rating" (rt_average_rating rating);
  nv ← getitem "num_votes" (rt_num_votes rating);
  movie_id ← getitem "movie_id" (rt_movie_id rating);
  mret (<[movie_id := {| average := avg; votes := nv |}]> ratings_dict).

Definition build_ratings (rows : list rating_row) : result (gmap string rating_doc) :=
  for_each ratings_step rows ∅.

(** ** Step 3: the genre index *)

Definition genres_step (genres_dict : gmap string (list value)) (genre : genre_row)
  : result (gmap string (list value)) :=
  movie_id ← getitem "movie_id" (gn_movie_id genre);
  g ← getitem "genre" (gn_genre genre);
  mret (<[movie_id := default [] (genres_dict !! movie_id) ++ [g]]> genres_dict).

Definition build_genres (rows : list genre_row) : result (gmap string (list value)) :=
  for_each genres_step rows ∅.

(** ** Step 4: the person resolver *)

Definition persons_step (persons_dict : gmap string value) (person : person_row)
  : result (gmap string value) :=
  nm ← getitem "name" (ps_name person);
  person_id ← getitem "person_id" (ps_person_id person);
  mret (<[person_id := nm]> persons_dict).

Definition build_persons (rows : list person_row) : result (gmap string value) :=
  for_each persons_step rows ∅.

(** [persons_dict.get(person_id, "Unknown")] *)
Definition person_name (persons_dict : gmap string value) (person_id : string) : value :=
  default (VStr "Unknown") (persons_dict !! person_id).

(** ** Steps 5 and 7: directors and writers *)

Definition credits_step (persons_dict : gmap string value)
    (credits_dict : gmap string (list person_ref)) (credit : credit_row)
  : result (gmap string (list person_ref)) :=
  movie_id ← getitem "movie_id" (cr_movie_id credit);
  person_id ← getitem "person_id" (cr_person_id credit);
  let nm := person_name persons_dict person_id in
  mret (<[movie_id := default [] (credits_dict !! movie_id)
                        ++ [{| pr_person_id := person_id; pr_name := nm |}]]> credits_dict).

Definition build_credits (persons_dict : gmap string value) (rows : list credit_row)
  : result (gmap string (list person_ref)) :=
  for_each (credits_step persons_dict) rows ∅.

(** ** Step 6: the cast, in two passes *)

(** The entry created for a person who enters a cast. *)
Definition fresh_entry (persons_dict : gmap string value) (person_id : string) : cast_entry :=
  {| ce_person_id := person_id;
     ce_name := person_name persons_dict person_id;
     ce_characters := [] |}.

(** Step 6a, one principal. *)
Definition principals_step (persons_dict : gmap string value)
    (cast_dict : gmap string (odict cast_entry)) (principal : credit_row)
  : result (gmap string (odict cast_entry)) :=
  movie_id ← getitem "movie_id" (cr_movie_id principal);
  let cast_dict :=
    if decide (is_Some (cast_dict !! movie_id)) then cast_dict
    else <[movie_id := []]> cast_dict in
  person_id ← getitem "person_id" (cr_person_id principal);
  let per_movie := default [] (cast_dict !! movie_id) in
  if od_mem person_id per_movie then mret cast_dict
  else mret (<[movie_id := od_set person_id (fresh_entry persons_dict person_id) per_movie]>
               cast_dict).

Definition load_principals (persons_dict : gmap string value) (rows : list credit_row)
  : result (gmap string (odict cast_entry)) :=
  for_each (principals_step persons_dict) rows ∅.

(** [entry["characters"].append(name)] *)
Definition append_character (e : cast_entry) (c : value) : cast_entry :=
  {| ce_person_id := ce_person_id e; ce_name := ce_name e;
     ce_characters := ce_characters e ++ [c] |}.

(** Step 6b, one character row. *)
Definition characters_step (cast_dict : gmap string (odict cast_entry))
    (character : character_row) : result (gmap string (odict cast_entry)) :=
  movie_id ← getitem "movie_id" (ch_movie_id character);
  match cast_dict !! movie_id with
  | None => mret cast_dict
  | Some per_movie =>
      person_id ← getitem "person_id" (ch_person_id character);
      match od_get person_id per_movie with
      | None => mret cast_dict
      | Some entry =>
          c ← getitem "name" (ch_name character);
          mret (<[movie_id := od_set person_id (append_character entry c) per_movie]> cast_dict)
      end
  end.

Definition add_characters (cast_dict : gmap string (odict cast_entry))
    (rows : list character_row) : result (gmap string (odict cast_entry)) :=
  for_each characters_step rows cast_dict.

Definition build_cast (persons_dict : gmap string value)
    (principal_rows : list credit_row) (character_rows : list character_row)
  : result (gmap string (odict cast_entry)) :=
  cast_dict ← load_principals persons_dict principal_rows;
  add_characters cast_dict character_rows.

(** ** Step 8: the document assembler *)

Record indices := {
  ratings_dict : gmap string rating_doc;
  genres_dict : gmap string (list value);
  persons_dict : gmap string value;
  directors_dict : gmap string (list person_ref);
  cast_dict : gmap string (odict cast_entry);
  writers_dict : gmap string (list person_ref)
}.

Definition default_rating : rating_doc := {| average := VNull; votes := VInt 0 |}.

Definition assemble_doc (idx : indices) (movie : movie_row) : result complete_doc :=
  movie_id ← getitem "movie_id" (mv_movie_id movie);
  let cast_list :=
    match cast_dict idx !! movie_id with
    | Some per_movie => od_values per_movie
    | None => []
    end in
  title ← getitem "primary_title" (mv_primary_title movie);
  year ← getitem "start_year" (mv_start_year movie);
  mret {| doc_id := movie_id;
          doc_title := title;
          doc_year := year;
          doc_runtime := default VNull (mv_runtime_minutes movie);
          doc_rating := default default_rating (ratings_dict idx !! movie_id);
          doc_genres := default [] (genres_dict idx !! movie_id);
          doc_directors := default [] (directors_dict idx !! movie_id);
          doc_cast := cast_list;
          doc_writers := default [] (writers_dict idx !! movie_id) |}.

Definition assemble_step (idx : indices) (complete_movies : list complete_doc)
    (movie : movie_row) : result (list complete_doc) :=
  complete_doc ← assemble_doc idx movie;
  mret (complete_movies ++ [complete_doc]).

Definition assemble (idx : indices) (movie_rows : list movie_row) : result (list complete_doc) :=
  for_each (assemble_step idx) movie_rows [].

(** Steps 2 to 7, in the order of the source. *)
Definition build_indices (src : source) : result indices :=
  rd ← build_ratings (ratings src);
  gd ← build_genres (genres src);
  pd ← build_persons (persons src);
  dd ← build_credits pd (directors src);
  cd ← build_cast pd (principals src) (characters src);
  wd ← build_credits pd (writers src);
  mret {| ratings_dict := rd; genres_dict := gd; persons_dict := pd;
          directors_dict := dd; cast_dict := cd; writers_dict := wd |}.

(** Steps 1 to 8: everything before the first write. *)
Definition build_documents (src : source) : result (list complete_doc) :=
  idx ← build_indices src;
  assemble idx (movies src).

(** ** Steps 9 and 10: the bulk loader and the secondary indexes *)

Inductive db_op : Type :=
| Drop
| InsertMany (batch : list complete_doc)
| CreateIndex (key : string).

Definition batch_size : nat := 1000.

(** [range(0, stop, step)] for a positive [step]. *)
Definition py_range (stop step : nat) : list nat :=
  (λ k, k * step) <$> seq 0 ((stop + step - 1) / step).

(** [l[i:j]] for [i <= j]. *)
Definition slice {A} (l : list A) (i j : nat) : list A := take (j - i) (drop i l).

Definition insert_ops (complete_movies : list complete_doc) : list db_op :=
  (λ i, InsertMany (slice complete_movies i (i + batch_size)))
    <$> py_range (length complete_movies) batch_size.

Definition index_keys : list string := ["title"; "year"; "genres"; "rating.average"].

Definition load_ops (complete_movies : list complete_doc) : list db_op :=
  Drop :: insert_ops complete_movies ++ (CreateIndex <$> index_keys).

(** One run: the operations sent to the destination collection, in
    order, and how the run ends. *)
Definition build_movies_complete (src : source) : list db_op * result () :=
  match build_documents src with
  | Ok complete_movies => (load_ops complete_movies, Ok ())
  | Raise e => ([], Raise e)
  end.

(** The destination collection, when every operation succeeds. *)
Record collection := {
  documents : list complete_doc;
  indexes : list string
}.

Definition apply_op (c : collection) (op : db_op) : collection :=
  match op with
  | Drop => {| documents := []; indexes := [] |}
  | InsertMany batch => {| documents := documents c ++ batch; indexes := indexes c |}
  | CreateIndex key =>
      {| documents := documents c;
         indexes := if bool_decide (key ∈ indexes c) then indexes c else indexes c ++ [key] |}
  end.

Definition run (src : source) (c : collection) : collection :=
  foldl apply_op c (build_movies_complete src).1.

(** ** What the relations say: the rows of one movie *)

Definition rating_of_row (r : rating_row) : option rating_doc :=
  avg ← rt_average_rating r; nv ← rt_num_votes r;
  Some {| average := avg; votes := nv |}.

Definition ratings_of (movie_id : string) (rows : list rating_row) : list rating_row :=
  filter (λ r, rt_movie_id r = Some movie_id) rows.

Definition genres_of (movie_id : string) (rows : list genre_row) : list genre_row :=
  filter (λ g, gn_movie_id g = Some movie_id) rows.

Definition credits_of (movie_id : string) (rows : list credit_row) : list credit_row :=
  filter (λ c, cr_movie_id c = Some movie_id) rows.

Definition characters_of (movie_id person_id : string) (rows : list character_row)
  : list character_row :=
  filter (λ c, ch_movie_id c = Some movie_id ∧ ch_person_id c = Some person_id) rows.

(** The entry that a director or writer row contributes. *)
Definition credit_ref (persons_dict : gmap string value) (c : credit_row) : option person_ref :=
  (λ p, {| pr_person_id := p; pr_name := person_name persons_dict p |}) <$> cr_person_id c.

(** The persons of a list, each once, in order of first appearance. *)
Definition first_seen (l : list string) : list string :=
  foldl (λ acc p, if decide (p ∈ acc) then acc else acc ++ [p]) [] l.

(** The cast of a movie as the relations describe it. *)
Definition cast_of (persons_dict : gmap string value) (movie_id : string)
    (principal_rows : list credit_row) (character_rows : list character_row)
  : list cast_entry :=
  (λ p, {| ce_person_id := p;
           ce_name := person_name persons_dict p;
           ce_characters := omap ch_name (characters_of movie_id p character_rows) |})
    <$> first_seen (omap cr_person_id (credits_of movie_id principal_rows)).

(** The per-movie dict of a movie, empty when the movie has none. *)
Definition cast_at (cast_dict : gmap string (odict cast_entry)) (movie_id : string)
  : odict cast_entry :=
  default [] (cast_dict !! movie_id).

(** [e] is [e0] after the character rows [rows] of [(movie_id, person_id)]. *)
Definition extended_by (movie_id person_id : string) (rows : list character_row)
    (e0 e : cast_entry) : Prop :=
  ce_person_id e = ce_person_id e0 ∧ ce_name e = ce_name e0 ∧
  Some <$> ce_characters e
    = (Some <$> ce_characters e0) ++ (ch_name <$> characters_of movie_id person_id rows).

(** A row of a credit relation that links the person to the movie. *)
Definition has_credit (movie_id person_id : string) (rows : list credit_row) : Prop :=
  ∃ row, row ∈ rows ∧ cr_movie_id row = Some movie_id ∧ cr_person_id row = Some person_id.

Definition has_person (person_id : string) (rows : list person_row) : Prop :=
  ∃ row, row ∈ rows ∧ ps_person_id row = Some person_id.

(** Rows that carry every key the code subscripts. *)
Definition movie_row_ok (r : movie_row) : Prop :=
  is_Some (mv_movie_id r) ∧ is_Some (mv_primary_title r) ∧ is_Some (mv_start_year r).
Definition rating_row_ok (r : rating_row) : Prop :=
  is_Some (rt_movie_id r) ∧ is_Some (rt_average_rating r) ∧ is_Some (rt_num_votes r).
Definition genre_row_ok (r : genre_row) : Prop :=
  is_Some (gn_movie_id r) ∧ is_Some (gn_genre r).
Definition person_row_ok (r : person_row) : Prop :=
  is_Some (ps_person_id r) ∧ is_Some (ps_name r).
Definition credit_row_ok (r : credit_row) : Prop :=
  is_Some (cr_movie_id r) ∧ is_Some (cr_person_id r).
Definition character_row_ok (r : character_row) : Prop :=
  is_Some (ch_movie_id r) ∧ is_Some (ch_person_id r) ∧ is_Some (ch_name r).

Definition relations_ok (src : source) : Prop :=
  Forall rating_row_ok (ratings src) ∧ Forall genre_row_ok (genres src) ∧
  Forall person_row_ok (persons src) ∧ Forall credit_row_ok (directors src) ∧
  Forall credit_row_ok (principals src) ∧ Forall character_row_ok (characters src) ∧
  Forall credit_row_ok (writers src).

(** The batches that a sequence of operations writes, in order. *)
Definition written_batches (ops : list db_op) : list (list complete_doc) :=
  omap (λ op, match op with InsertMany batch => Some batch | _ => None end) ops.


(** ** Concrete sources *)

Definition movie (id : string) (title : string) (year runtime : Z) : movie_row :=
  {| mv_movie_id := Some id; mv_primary_title := Some (VStr title);
     mv_start_year := Some (VInt year); mv_runtime_minutes := Some (VInt runtime) |}.

Definition credit (movie_id person_id : string) : credit_row :=
  {| cr_movie_id := Some movie_id; cr_person_id := Some person_id |}.

Definition character (movie_id person_id name : string) : character_row :=
  {| ch_movie_id := Some movie_id; ch_person_id := Some person_id;
     ch_name := Some (VStr name) |}.

Definition person (person_id name : string) : person_row :=
  {| ps_person_id := Some person_id; ps_name := Some (VStr name) |}.

Definition rating (movie_id : string) (avg : Q) (nv : Z) : rating_row :=
  {| rt_movie_id := Some movie_id; rt_average_rating := Some (VReal avg);
     rt_num_votes := Some (VInt nv) |}.

Definition genre (movie_id g : string) : genre_row :=
  {| gn_movie_id := Some movie_id; gn_genre := Some (VStr g) |}.

(** The scenario of one movie with a rating, a genre, a director and an
    actor with two characters. *)
Definition alpha_source : source :=
  {| movies := [movie "m1" "Alpha" 2000 100];
     ratings := [rating "m1" (17 # 2) 1000];
     genres := [genre "m1" "Drama"];
     persons := [person "p1" "A. Actor"; person "p2" "B. Director"];
     directors := [credit "m1" "p2"];
     principals := [credit "m1" "p1"];
     characters := [character "m1" "p1" "Hero"; character "m1" "p1" "Narrator"];
     writers := [] |}.

Definition alpha_doc : complete_doc :=
  {| doc_id := "m1";
     doc_title := VStr "Alpha";
     doc_year := VInt 2000;
     doc_runtime := VInt 100;
     doc_rating := {| average := VReal (17 # 2); votes := VInt 1000 |};
     doc_genres := [VStr "Drama"];
     doc_directors := [{| pr_person_id := "p2"; pr_name := VStr "B. Director" |}];
     doc_cast := [{| ce_person_id := "p1"; ce_name := VStr "A. Actor";
                     ce_characters := [VStr "Hero"; VStr "Narrator"] |}];
     doc_writers := [] |}.

(** The fields of the document of the scenario after its key. *)
Definition alpha_fields : list (string * value) :=
  [("title", VStr "Alpha");
   ("year", VInt 2000);
   ("runtime", VInt 100);
   ("rating", VDoc [("average", VReal (17 # 2)); ("votes", VInt 1000)]);
   ("genres", VList [VStr "Drama"]);
   ("directors", VList [VDoc [("person_id", VStr "p2"); ("name", VStr "B. Director")]]);
   ("cast", VList [VDoc [("person_id", VStr "p1"); ("name", VStr "A. Actor");
                         ("characters", VList [VStr "Hero"; VStr "Narrator"])]]);
   ("writers", VList [])].

(** The document of the scenario under the key [id]. *)
Definition alpha_bson_id : value := VDoc (("id", VStr "m1") :: alpha_fields).

(** The document of the scenario under the key [_id]. *)
Definition alpha_bson : value := VDoc (("_id", VStr "m1") :: alpha_fields).

(** A source with orphans: [p2] and [p9] are not persons, the pairs
    [(m1, p3)] and [(m3, p1)] have characters but no principal, and
    [m2] has no rating, genre or writer. *)
Definition orphan_source : source :=
  {| movies := [movie "m1" "Alpha" 2000 100; movie "m2" "Beta" 2001 90];
     ratings := [rating "m1" (17 # 2) 1000];
     genres := [genre "m1" "Drama"];
     persons := [person "p1" "A. Actor"];
     directors := [credit "m2" "p9"];
     principals := [credit "m1" "p1"; credit "m1" "p2"; credit "m1" "p1"; credit "m2" "p9"];
     characters := [character "m1" "p1" "Hero"; character "m1" "p3" "Ghost";
                    character "m3" "p1" "Extra"; character "m1" "p1" "Hero";
                    character "m1" "p2" "Villain"];
     writers := [credit "m1" "p9"] |}.

Definition orphan_docs : list complete_doc :=
  [{| doc_id := "m1"; doc_title := VStr "Alpha"; doc_year := VInt 2000;
      doc_runtime := VInt 100;
      doc_rating := {| average := VReal (17 # 2); votes := VInt 1000 |};
      doc_genres := [VStr "Drama"];
      doc_directors := [];
      doc_cast := [{| ce_person_id := "p1"; ce_name := VStr "A. Actor";
                      ce_characters := [VStr "Hero"; VStr "Hero"] |};
                   {| ce_person_id := "p2"; ce_name := VStr "Unknown";
                      ce_characters := [VStr "Villain"] |}];
      doc_writers := [{| pr_person_id := "p9"; pr_name := VStr "Unknown" |}] |};
   {| doc_id := "m2"; doc_title := VStr "Beta"; doc_year := VInt 2001;
      doc_runtime := VInt 90;
      doc_rating := {| average := VNull; votes := VInt 0 |};
      doc_genres := [];
      doc_directors := [{| pr_person_id := "p9"; pr_name := VStr "Unknown" |}];
      doc_cast := [{| ce_person_id := "p9"; ce_name := VStr "Unknown";
                      ce_characters := [] |}];
      doc_writers := [] |}].

(** A movie with nothing but its own columns, [n] times. *)
Definition bare_source (n : nat) : source :=
  {| movies := replicate n (movie "m0" "Bare" 1999 60);
     ratings := []; genres := []; persons := []; directors := [];
     principals := []; characters := []; writers := [] |}.

Definition bare_doc : complete_doc :=
  {| doc_id := "m0"; doc_title := VStr "Bare"; doc_year := VInt 1999;
     doc_runtime := VInt 60; doc_rating := default_rating; doc_genres := [];
     doc_directors := []; doc_cast := []; doc_writers := [] |}.

Definition no_indices : indices :=
  {| ratings_dict := ∅; genres_dict := ∅; persons_dict := ∅;
     directors_dict := ∅; cast_dict := ∅; writers_dict := ∅ |}.

(** A movie row without its [movie_id]. *)
Definition keyless_movie : movie_row :=
  {| mv_movie_id := None; mv_primary_title := Some (VStr "Alpha");
     mv_start_year := Some (VInt 2000); mv_runtime_minutes := Some (VInt 100) |}.

(** The cast index after the principals [(m1, p1)] and [(m1, p2)]. *)
Definition sample_cast_dict : gmap string (list (string * cast_entry)) :=
  {[ "m1" := [("p1", fresh_entry ∅ "p1"); ("p2", fresh_entry ∅ "p2")] ]}.

(** Ratings in which [m1] occurs three times. *)
Definition repeated_ratings : list rating_row :=
  [rating "m1" (17 # 2) 1000; rating "m2" (6 # 1) 10; rating "m1" (9 # 1) 5;
   rating "m1" (7 # 1) 70].

(** The source with another characters relation. *)
Definition with_characters (src : source) (rows : list character_row) : source :=
  {| movies := movies src; ratings := ratings src; genres := genres src;
     persons := persons src; directors := directors src;
     principals := principals src; characters := rows; writers := writers src |}.

(** ** More of what the relations say *)

(** The name under which a person id is resolved: the name of its last
    row in the persons relation, "Unknown" without a row. *)
Definition resolve (rows : list person_row) (person_id : string) : value :=
  default (VStr "Unknown")
    (last (filter (λ r, ps_person_id r = Some person_id) rows) ≫= ps_name).

(** The number of distinct ids in a list. *)
Definition distinct (ids : list string) : nat := length (remove_dups ids).

(** The character rows of a movie. *)
Definition characters_of_movie (movie_id : string) (rows : list character_row)
  : list character_row :=
  filter (λ c, ch_movie_id c = Some movie_id) rows.

(** Two sources with the same persons and the same rows for one movie. *)
Definition same_rows_of (movie_id : string) (src1 src2 : source) : Prop :=
  persons src1 = persons src2 ∧
  ratings_of movie_id (ratings src1) = ratings_of movie_id (ratings src2) ∧
  genres_of movie_id (genres src1) = genres_of movie_id (genres src2) ∧
  credits_of movie_id (directors src1) = credits_of movie_id (directors src2) ∧
  credits_of movie_id (principals src1) = credits_of movie_id (principals src2) ∧
  characters_of_movie movie_id (characters src1)
    = characters_of_movie movie_id (characters src2) ∧
  credits_of movie_id (writers src1) = credits_of movie_id (writers src2).

(** A character row on which step 6b raises, given the principals: it
    has no [movie_id]; or its movie has principals and it has no
    [person_id]; or its pair has a principal and it has no [name]. *)
Definition character_row_bad (principal_rows : list credit_row) (row : character_row) : Prop :=
  match ch_movie_id row with
  | None => True
  | Some m =>
      credits_of m principal_rows ≠ [] ∧
      match ch_person_id row with
      | None => True
      | Some p => has_credit m p principal_rows ∧ ch_name row = None
      end
  end.


(** ** The statistics of a run *)

(** The counts printed at the end of a run (lines 176 to 180). *)
Record statistics := {
  films : nat;
  films_with_genres : nat;
  films_with_directors : nat;
  films_with_cast : nat;
  films_with_writers : nat
}.

Definition statistics_of (idx : indices) (complete_movies : list complete_doc) : statistics :=
  {| films := length complete_movies;
     films_with_genres := size (genres_dict idx);
     films_with_directors := size (directors_dict idx);
     films_with_cast := size (cast_dict idx);
     films_with_writers := size (writers_dict idx) |}.

Definition build_statistics (src : source) : result statistics :=
  idx ← build_indices src;
  complete_movies ← assemble idx (movies src);
  mret (statistics_of idx complete_movies).

(** ** The insertion loop with its progress lines *)






(** ** More concrete sources *)

(** Genres and directors that repeat, for two movies. *)
Definition genre_source : source :=
  {| movies := [movie "m1" "Alpha" 2000 100; movie "m2" "Beta" 2001 90];
     ratings := [];
     genres := [genre "m1" "Drama"; genre "m2" "Comedy"; genre "m1" "Crime";
                genre "m1" "Drama"];
     persons := [person "p1" "A. Actor"; person "p2" "B. Director"];
     directors := [credit "m1" "p2"; credit "m1" "p1"; credit "m1" "p2"];
     principals := [];
     characters := [];
     writers := [] |}.

Definition genre_docs : list complete_doc :=
  [{| doc_id := "m1"; doc_title := VStr "Alpha"; doc_year := VInt 2000;
      doc_runtime := VInt 100; doc_rating := default_rating;
      doc_genres := [VStr "Drama"; VStr "Crime"; VStr "Drama"];
      doc_directors := [{| pr_person_id := "p2"; pr_name := VStr "B. Director" |};
                        {| pr_person_id := "p1"; pr_name := VStr "A. Actor" |};
                        {| pr_person_id := "p2"; pr_name := VStr "B. Director" |}];
      doc_cast := []; doc_writers := [] |};
   {| doc_id := "m2"; doc_title := VStr "Beta"; doc_year := VInt 2001;
      doc_runtime := VInt 90; doc_rating := default_rating;
      doc_genres := [VStr "Comedy"];
      doc_directors := []; doc_cast := []; doc_writers := [] |}].

(** A person with two rows in persons, and one without any. *)
Definition renamed_source : source :=
  {| movies := [movie "m1" "Alpha" 2000 100];
     ratings := []; genres := [];
     persons := [person "p1" "A. Actor"; person "p2" "B. Director";
                 person "p1" "A. Actress"];
     directors := [credit "m1" "p1"; credit "m1" "p7"];
     principals := [credit "m1" "p1"];
     characters := [];
     writers := [credit "m1" "p2"] |}.

Definition renamed_docs : list complete_doc :=
  [{| doc_id := "m1"; doc_title := VStr "Alpha"; doc_year := VInt 2000;
      doc_runtime := VInt 100; doc_rating := default_rating; doc_genres := [];
      doc_directors := [{| pr_person_id := "p1"; pr_name := VStr "A. Actress" |};
                        {| pr_person_id := "p7"; pr_name := VStr "Unknown" |}];
      doc_cast := [{| ce_person_id := "p1"; ce_name := VStr "A. Actress";
                      ce_characters := [] |}];
      doc_writers := [{| pr_person_id := "p2"; pr_name := VStr "B. Director" |}] |}].

(** A character row on which step 6b raises, given the cast index: as
    [character_row_bad], read off the index. *)
Definition character_row_raises_in (cast_dict : gmap string (odict cast_entry))
    (row : character_row) : Prop :=
  match ch_movie_id row with
  | None => True
  | Some m =>
      is_Some (cast_dict !! m) ∧
      match ch_person_id row with
      | None => True
      | Some p => is_Some (od_get p (cast_at cast_dict m)) ∧ ch_name row = None
      end
  end.

(** The cast index [cd] has the movies of [cd0] and, for each movie,
    its persons. *)
Definition same_cast_keys (cd0 cd : gmap string (odict cast_entry)) : Prop :=
  ∀ m, (is_Some (cd !! m) ↔ is_Some (cd0 !! m)) ∧
       od_keys (cast_at cd m) = od_keys (cast_at cd0 m).

(** A character row without a name, for a pair with and without a
    principal. *)
Definition nameless_character (movie_id person_id : string) : character_row :=
  {| ch_movie_id := Some movie_id; ch_person_id := Some person_id; ch_name := None |}.



(** The scenario next to a second movie whose rows come first. *)
Definition alpha_beta_source : source :=
  {| movies := [movie "m1" "Alpha" 2000 100; movie "m2" "Beta" 2001 90];
     ratings := [rating "m2" (6 # 1) 10; rating "m1" (17 # 2) 1000];
     genres := [genre "m2" "Comedy"; genre "m1" "Drama"; genre "m3" "Horror"];
     persons := [person "p1" "A. Actor"; person "p2" "B. Director"];
     directors := [credit "m2" "p1"; credit "m1" "p2"];
     principals := [credit "m2" "p2"; credit "m1" "p1"; credit "m2" "p1"];
     characters := [character "m2" "p1" "Clown"; character "m1" "p1" "Hero";
                    character "m2" "p2" "Judge"; character "m1" "p1" "Narrator"];
     writers := [credit "m2" "p2"] |}.

Definition beta_doc : complete_doc :=
  {| doc_id := "m2"; doc_title := VStr "Beta"; doc_year := VInt 2001;
     doc_runtime := VInt 90;
     doc_rating := {| average := VReal (6 # 1); votes := VInt 10 |};
     doc_genres := [VStr "Comedy"];
     doc_directors := [{| pr_person_id := "p1"; pr_name := VStr "A. Actor" |}];
     doc_cast := [{| ce_person_id := "p2"; ce_name := VStr "B. Director";
                     ce_characters := [VStr "Judge"] |};
                  {| ce_person_id := "p1"; ce_name := VStr "A. Actor";
                     ce_characters := [VStr "Clown"] |}];
     doc_writers := [{| pr_person_id := "p2"; pr_name := VStr "B. Director" |}] |}.

(** * Proofs *)

(** ** The exception monad and loops *)

Lemma bind_Ok {A B} (f : A → result B) (r : result A) (b : B) :
  r ≫= f = Ok b ↔ ∃ a, r = Ok a ∧ f a = Ok b.
Proof.
  destruct r as [a|e]; simpl; split.
  - eauto.
  - intros (a' & Ha & Hf). by injection Ha as ->.
  - discriminate.
  - intros (a' & Ha & _). discriminate.
Qed.

Lemma for_each_snoc {S R} (body : S → R → result S) rows row st :
  for_each body (rows ++ [row]) st = for_each body rows st ≫= λ st', body st' row.
Proof.
  revert st. induction rows as [|r rows IH]; intros st; simpl.
  - by destruct (body st row).
  - destruct (body st r); simpl; [apply IH | done].
Qed.

(** The loop rule: an invariant over the rows consumed so far. *)
Lemma for_each_invariant {S R} (body : S → R → result S) (I : list R → S → Prop)
    rows st0 st :
  I [] st0 →
  (∀ pre row s s', I pre s → body s row = Ok s' → I (pre ++ [row]) s') →
  for_each body rows st0 = Ok st → I rows st.
Proof.
  intros H0 Hstep. revert st.
  induction rows as [|row rows IH] using rev_ind; intros st; simpl.
  - by intros [= <-].
  - rewrite for_each_snoc. intros (s & Hs & Hb)%bind_Ok. eauto.
Qed.

Lemma for_each_is_ok {S R} (body : S → R → result S) (ok : R → Prop) rows st :
  (∀ s row, ok row → is_ok (body s row)) →
  Forall ok rows → is_ok (for_each body rows st).
Proof.
  intros Hbody Hrows. revert st.
  induction Hrows as [|row rows Hrow _ IH]; intros st; simpl.
  - by exists st.
  - destruct (Hbody st row Hrow) as [s ->]. apply IH.
Qed.

Lemma filter_none {A} (P : A → Prop) `{!∀ x, Decision (P x)} (l : list A) :
  (∀ x, x ∈ l → ¬ P x) → filter P l = [].
Proof.
  induction l as [|x l IH]; intros Hno; [done|].
  rewrite filter_cons_False by (apply Hno; left).
  apply IH. intros y Hy. apply Hno. by right.
Qed.

(** Splits the successful run of a step into its subscripts. *)
Ltac step_inv H :=
  repeat match type of H with
  | context [getitem _ ?f] =>
      let E := fresh "E" in destruct f eqn:E; simpl in H; [|discriminate H]
  end.

(** Proves the goal, a property of the final state of the loop [H], as
    the instance at all rows of the invariant [I]. *)
Tactic Notation "loop_invariant" uconstr(I) "from" hyp(H) :=
  refine (for_each_invariant _ I _ _ _ _ _ H); clear H.

(** ** Step 2 *)

Lemma ratings_step_Ok rd row rd' :
  ratings_step rd row = Ok rd' ↔
  ∃ m avg nv, rt_movie_id row = Some m ∧ rt_average_rating row = Some avg ∧
    rt_num_votes row = Some nv ∧ rd' = <[m := {| average := avg; votes := nv |}]> rd.
Proof.
  unfold ratings_step. split.
  - intros H. step_inv H. injection H as <-. eauto 10.
  - intros (m & avg & nv & -> & -> & -> & ->). done.
Qed.

Lemma build_ratings_lookup rows rd m :
  build_ratings rows = Ok rd →
  rd !! m = last (ratings_of m rows) ≫= rating_of_row.
Proof.
  intros Hrun.
  loop_invariant (λ pre rd, rd !! m = last (ratings_of m pre) ≫= rating_of_row)
    from Hrun; [done|].
  intros pre row d d' IH (m0 & avg & nv & Hm & Havg & Hnv & ->)%ratings_step_Ok.
  unfold ratings_of in *. rewrite filter_app.
  destruct (decide (m0 = m)) as [->|Hne].
  - rewrite lookup_insert_eq, filter_cons_True, filter_nil, last_snoc by done.
    simpl. unfold rating_of_row. by rewrite Havg, Hnv.
  - rewrite lookup_insert_ne, filter_cons_False, filter_nil, app_nil_r by congruence.
    done.
Qed.

Lemma build_ratings_is_ok rows :
  Forall rating_row_ok rows → is_ok (build_ratings rows).
Proof.
  apply for_each_is_ok. intros rd row ([m Hm] & [avg Havg] & [nv Hnv]).
  eexists. apply ratings_step_Ok. eauto 10.
Qed.

(** ** Step 3 *)

Lemma genres_step_Ok gd row gd' :
  genres_step gd row = Ok gd' ↔
  ∃ m g, gn_movie_id row = Some m ∧ gn_genre row = Some g ∧
    gd' = <[m := default [] (gd !! m) ++ [g]]> gd.
Proof.
  unfold genres_step. split.
  - intros H. step_inv H. injection H as <-. eauto 10.
  - intros (m & g & -> & -> & ->). done.
Qed.

Lemma build_genres_lookup rows gd m :
  build_genres rows = Ok gd →
  Some <$> default [] (gd !! m) = gn_genre <$> genres_of m rows.
Proof.
  intros Hrun.
  loop_invariant (λ pre gd, Some <$> default [] (gd !! m) = gn_genre <$> genres_of m pre)
    from Hrun; [done|].
  intros pre row d d' IH (m0 & g & Hm & Hg & ->)%genres_step_Ok.
  unfold genres_of in *. rewrite filter_app, fmap_app, <-IH.
  destruct (decide (m0 = m)) as [->|Hne].
  - rewrite lookup_insert_eq, filter_cons_True, filter_nil by done.
    simpl. by rewrite fmap_app, Hg.
  - rewrite lookup_insert_ne, filter_cons_False, filter_nil, app_nil_r by congruence.
    done.
Qed.

Lemma build_genres_is_ok rows :
  Forall genre_row_ok rows → is_ok (build_genres rows).
Proof.
  apply for_each_is_ok. intros gd row ([m Hm] & [g Hg]).
  eexists. apply genres_step_Ok. eauto 10.
Qed.

(** ** Step 4 *)

Lemma persons_step_Ok pd row pd' :
  persons_step pd row = Ok pd' ↔
  ∃ p nm, ps_person_id row = Some p ∧ ps_name row = Some nm ∧ pd' = <[p := nm]> pd.
Proof.
  unfold persons_step. split.
  - intros H. step_inv H. injection H as <-. eauto 10.
  - intros (p & nm & -> & -> & ->). done.
Qed.

Lemma build_persons_lookup rows pd p :
  build_persons rows = Ok pd →
  pd !! p = last (filter (λ r, ps_person_id r = Some p) rows) ≫= ps_name.
Proof.
  intros Hrun.
  loop_invariant
    (λ pre pd, pd !! p = last (filter (λ r, ps_person_id r = Some p) pre) ≫= ps_name)
    from Hrun; [done|].
  intros pre row d d' IH (p0 & nm & Hp & Hnm & ->)%persons_step_Ok.
  rewrite filter_app.
  destruct (decide (p0 = p)) as [->|Hne].
  - by rewrite lookup_insert_eq, filter_cons_True, filter_nil, last_snoc.
  - rewrite lookup_insert_ne, filter_cons_False, filter_nil, app_nil_r by congruence.
    done.
Qed.

Lemma build_persons_absent rows pd p :
  build_persons rows = Ok pd → ¬ has_person p rows → pd !! p = None.
Proof.
  intros Hrun Hno. rewrite (build_persons_lookup _ _ _ Hrun).
  replace (filter _ rows) with (@nil person_row); [done|].
  symmetry. apply filter_none. intros row Hin Hp.
  apply Hno. by exists row.
Qed.

Lemma build_persons_is_ok rows :
  Forall person_row_ok rows → is_ok (build_persons rows).
Proof.
  apply for_each_is_ok. intros pd row ([p Hp] & [nm Hnm]).
  eexists. apply persons_step_Ok. eauto 10.
Qed.

Lemma person_name_absent pd p : pd !! p = None → person_name pd p = VStr "Unknown".
Proof. unfold person_name. by intros ->. Qed.

(** ** Steps 5 and 7 *)

Lemma credits_step_Ok pd cd row cd' :
  credits_step pd cd row = Ok cd' ↔
  ∃ m p, cr_movie_id row = Some m ∧ cr_person_id row = Some p ∧
    cd' = <[m := default [] (cd !! m)
                   ++ [{| pr_person_id := p; pr_name := person_name pd p |}]]> cd.
Proof.
  unfold credits_step. split.
  - intros H. step_inv H. injection H as <-. eauto 10.
  - intros (m & p & -> & -> & ->). done.
Qed.

Lemma build_credits_lookup pd rows cd m :
  build_credits pd rows = Ok cd →
  Some <$> default [] (cd !! m) = credit_ref pd <$> credits_of m rows.
Proof.
  intros Hrun.
  loop_invariant
    (λ pre cd, Some <$> default [] (cd !! m) = credit_ref pd <$> credits_of m pre)
    from Hrun; [done|].
  intros pre row d d' IH (m0 & p & Hm & Hp & ->)%credits_step_Ok.
  unfold credits_of in *. rewrite filter_app, fmap_app, <-IH.
  destruct (decide (m0 = m)) as [->|Hne].
  - rewrite lookup_insert_eq, filter_cons_True, filter_nil by done.
    simpl. rewrite fmap_app. unfold credit_ref. by rewrite Hp.
  - rewrite lookup_insert_ne, filter_cons_False, filter_nil, app_nil_r by congruence.
    done.
Qed.

Lemma build_credits_is_ok pd rows :
  Forall credit_row_ok rows → is_ok (build_credits pd rows).
Proof.
  apply for_each_is_ok. intros cd row ([m Hm] & [p Hp]).
  eexists. apply credits_step_Ok. eauto 10.
Qed.

(** ** Insertion-ordered dicts *)

Section odict.
Context {V : Type}.
Implicit Types (d : odict V) (k : string) (v : V).

Lemma od_get_None k d : od_get k d = None ↔ k ∉ od_keys d.
Proof.
  unfold od_get, od_keys. induction d as [|[k' v'] d IH]; simpl.
  - split; [intros _; apply not_elem_of_nil | done].
  - rewrite not_elem_of_cons. destruct (decide (k' = k)) as [->|Hne].
    + split; [done | by intros [? _]].
    + rewrite IH. split; [by intros; split; [congruence|] | by intros [_ ?]].
Qed.

Lemma od_mem_true k d : od_mem k d = true ↔ k ∈ od_keys d.
Proof.
  unfold od_mem. rewrite bool_decide_eq_true.
  destruct (od_get k d) as [v|] eqn:E.
  - split; [intros _|by eauto].
    destruct (decide (k ∈ od_keys d)) as [|Hn]; [done|].
    apply od_get_None in Hn. congruence.
  - split; [by intros [? ?]|]. intros Hin. by apply od_get_None in E.
Qed.

Lemma od_get_elem_of k v d : od_get k d = Some v → (k, v) ∈ d.
Proof.
  unfold od_get. induction d as [|[k' v'] d IH]; simpl; [done|].
  case_decide; [intros [= ->]; subst; left | intros; right; auto].
Qed.

Lemma od_elem_of_get k v d : NoDup (od_keys d) → (k, v) ∈ d → od_get k d = Some v.
Proof.
  unfold od_get, od_keys. induction d as [|[k' v'] d IH]; simpl.
  - intros _ Hin. by apply elem_of_nil in Hin.
  - intros [Hk' Hnd]%NoDup_cons [[= -> ->]|Hin]%elem_of_cons.
    + by rewrite decide_True.
    + rewrite decide_False; [auto|].
      intros ->. apply Hk'. apply list_elem_of_fmap. by exists (k, v).
Qed.

Lemma od_get_set_eq k v d : od_get k (od_set k v d) = Some v.
Proof.
  unfold od_get. induction d as [|[k' v'] d IH]; simpl.
  - by rewrite decide_True.
  - case_decide; simpl; [by rewrite decide_True | by rewrite decide_False].
Qed.

Lemma od_get_set_ne k k' v d : k ≠ k' → od_get k' (od_set k v d) = od_get k' d.
Proof.
  unfold od_get. intros Hne. induction d as [|[k0 v0] d IH]; simpl.
  - by rewrite decide_False.
  - destruct (decide (k0 = k)) as [->|]; simpl.
    + by rewrite !decide_False.
    + by rewrite IH.
Qed.

Lemma od_set_new k v d : od_get k d = None → od_set k v d = d ++ [(k, v)].
Proof.
  unfold od_get. induction d as [|[k' v'] d IH]; simpl; [done|].
  case_decide; [done|]. intros Hd. by rewrite IH.
Qed.

Lemma od_keys_set_old k v d : is_Some (od_get k d) → od_keys (od_set k v d) = od_keys d.
Proof.
  unfold od_get, od_keys. induction d as [|[k' v'] d IH]; simpl.
  - by intros [? ?].
  - case_decide; [done|]. intros Hd. rewrite fmap_cons. f_equal. by apply IH.
Qed.

(** A dict with distinct keys is its keys with their values. *)
Lemma od_values_by_keys (f : string → V) d :
  NoDup (od_keys d) →
  (∀ k v, od_get k d = Some v → v = f k) →
  od_values d = f <$> od_keys d.
Proof.
  unfold od_values, od_keys. induction d as [|[k v] d IH]; simpl; [done|].
  intros [Hk Hnd]%NoDup_cons Hget. f_equal.
  - apply Hget. unfold od_get. simpl. by rewrite decide_True.
  - apply IH; [done|]. intros k' v' Hk'. apply Hget.
    unfold od_get in *. simpl. rewrite decide_False; [done|].
    intros ->. apply Hk. apply od_get_elem_of in Hk'.
    apply list_elem_of_fmap. by exists (k', v').
Qed.
End odict.

(** ** First appearances *)

Lemma first_seen_snoc l p :
  first_seen (l ++ [p])
  = if decide (p ∈ first_seen l) then first_seen l else first_seen l ++ [p].
Proof. unfold first_seen. by rewrite foldl_app. Qed.

Lemma elem_of_first_seen l p : p ∈ first_seen l ↔ p ∈ l.
Proof.
  induction l as [|q l IH] using rev_ind.
  - done.
  - rewrite first_seen_snoc, elem_of_app, list_elem_of_singleton, <-IH.
    case_decide; [|rewrite elem_of_app, list_elem_of_singleton; tauto].
    split; [tauto|]. by intros [?| ->].
Qed.

Lemma NoDup_first_seen l : NoDup (first_seen l).
Proof.
  induction l as [|q l IH] using rev_ind.
  - constructor.
  - rewrite first_seen_snoc. case_decide; [done|].
    apply NoDup_app. split_and!; [done| |apply NoDup_singleton].
    intros x Hx ->%list_elem_of_singleton. done.
Qed.

(** ** Step 6a: the principals *)

Lemma cast_at_insert cd m m' d :
  cast_at (<[m := d]> cd) m' = if decide (m' = m) then d else cast_at cd m'.
Proof.
  unfold cast_at. case_decide as Hm.
  - subst. by rewrite lookup_insert_eq.
  - by rewrite lookup_insert_ne.
Qed.

(** One principal either leaves the cast of its movie as it is, or adds
    a fresh entry at its end. *)
Lemma principals_step_Ok pd cd row cd' :
  principals_step pd cd row = Ok cd' →
  ∃ m0 p0, cr_movie_id row = Some m0 ∧ cr_person_id row = Some p0 ∧
    ∀ m, cast_at cd' m =
      if decide (m = m0) then
        if decide (p0 ∈ od_keys (cast_at cd m0)) then cast_at cd m0
        else cast_at cd m0 ++ [(p0, fresh_entry pd p0)]
      else cast_at cd m.
Proof.
  unfold principals_step. intros H. step_inv H.
  rename s into m0, s0 into p0. exists m0, p0. split_and!; [done..|].
  set (cd1 := if decide (is_Some (cd !! m0)) then cd else <[m0 := []]> cd) in *.
  assert (∀ m, cast_at cd1 m = cast_at cd m) as Hcd1.
  { intros m. subst cd1. case_decide as Hs; [done|].
    rewrite cast_at_insert. case_decide; [|done]. subst.
    unfold cast_at. destruct (cd !! m0); [|done]. by destruct Hs. }
  fold (cast_at cd1 m0) in H. rewrite Hcd1 in H.
  intros m. destruct (od_mem p0 (cast_at cd m0)) eqn:Hmem; injection H as <-.
  - apply od_mem_true in Hmem. rewrite Hcd1.
    case_decide; [subst; by rewrite decide_True|done].
  - rewrite cast_at_insert, Hcd1. case_decide; [|done].
    assert (p0 ∉ od_keys (cast_at cd m0)) as Hn.
    { rewrite <-od_mem_true. by rewrite Hmem. }
    rewrite decide_False by done. apply od_set_new. by apply od_get_None.
Qed.

Lemma principals_step_is_ok pd cd row :
  credit_row_ok row → is_ok (principals_step pd cd row).
Proof.
  intros ([m Hm] & [p Hp]). unfold principals_step. rewrite Hm, Hp. simpl.
  destruct (od_mem _ _); by eexists.
Qed.

Lemma credits_of_snoc m rows row :
  credits_of m (rows ++ [row])
  = credits_of m rows ++ (if decide (cr_movie_id row = Some m) then [row] else []).
Proof. unfold credits_of. by rewrite filter_app. Qed.

(** After step 6a the keys of a movie are its persons in order of first
    appearance, and every entry is fresh. *)
Lemma load_principals_cast_at pd rows cd m :
  load_principals pd rows = Ok cd →
  od_keys (cast_at cd m) = first_seen (omap cr_person_id (credits_of m rows)) ∧
  ∀ p e, od_get p (cast_at cd m) = Some e → e = fresh_entry pd p.
Proof.
  intros Hrun. revert m.
  loop_invariant (λ pre cd, ∀ m,
    od_keys (cast_at cd m) = first_seen (omap cr_person_id (credits_of m pre)) ∧
    ∀ p e, od_get p (cast_at cd m) = Some e → e = fresh_entry pd p) from Hrun.
  { intros m. split; [done|]. intros p e. by unfold cast_at; rewrite lookup_empty. }
  intros pre row d d' IH (m0 & p0 & Hm & Hp & Hd')%principals_step_Ok m.
  rewrite Hd', credits_of_snoc. destruct (IH m) as [IHk IHe].
  destruct (decide (m = m0)) as [->|Hne].
  - rewrite (decide_True _ _ Hm), omap_app. simpl. rewrite Hp. simpl.
    rewrite first_seen_snoc, <-IHk.
    destruct (decide (p0 ∈ od_keys (cast_at d m0))) as [Hin|Hin]; [done|].
    split.
    + unfold od_keys. by rewrite fmap_app.
    + intros p e. destruct (decide (p = p0)) as [->|Hpne].
      * apply od_get_None in Hin. rewrite <-(od_set_new _ (fresh_entry pd p0)) by done.
        rewrite od_get_set_eq. by intros [= <-].
      * apply od_get_None in Hin. rewrite <-(od_set_new _ (fresh_entry pd p0)) by done.
        rewrite od_get_set_ne by done. apply IHe.
  - rewrite (decide_False (P := cr_movie_id row = Some m)) by congruence.
    by rewrite app_nil_r.
Qed.

Lemma load_principals_is_ok pd rows :
  Forall credit_row_ok rows → is_ok (load_principals pd rows).
Proof. apply for_each_is_ok. intros. by apply principals_step_is_ok. Qed.

(** ** Step 6b: the characters *)

Lemma characters_of_snoc m p rows row :
  characters_of m p (rows ++ [row])
  = characters_of m p rows
    ++ (if decide (ch_movie_id row = Some m ∧ ch_person_id row = Some p) then [row] else []).
Proof. unfold characters_of. by rewrite filter_app. Qed.

Lemma extended_by_refl m p e : extended_by m p [] e e.
Proof. unfold extended_by. by rewrite app_nil_r. Qed.

Lemma extended_by_skip m p rows row e0 e :
  ¬ (ch_movie_id row = Some m ∧ ch_person_id row = Some p) →
  extended_by m p rows e0 e → extended_by m p (rows ++ [row]) e0 e.
Proof.
  unfold extended_by. intros Hno H.
  by rewrite characters_of_snoc, decide_False, app_nil_r.
Qed.

Lemma extended_by_append m p rows row c e0 e :
  ch_movie_id row = Some m → ch_person_id row = Some p → ch_name row = Some c →
  extended_by m p rows e0 e → extended_by m p (rows ++ [row]) e0 (append_character e c).
Proof.
  unfold extended_by. intros Hm Hp Hc (Hid & Hnm & Hch). simpl. split_and!; [done..|].
  rewrite characters_of_snoc, decide_True by done.
  rewrite !fmap_app, Hch, <-app_assoc. simpl. by rewrite Hc.
Qed.

(** The three ways in which one character row passes. *)
Lemma characters_step_Ok cd row cd' :
  characters_step cd row = Ok cd' →
  ∃ m0, ch_movie_id row = Some m0 ∧
    ((cd !! m0 = None ∧ cd' = cd) ∨
     (∃ p0, ch_person_id row = Some p0 ∧
        ((is_Some (cd !! m0) ∧ od_get p0 (cast_at cd m0) = None ∧ cd' = cd) ∨
         (∃ e c, od_get p0 (cast_at cd m0) = Some e ∧ ch_name row = Some c ∧
            cd' = <[m0 := od_set p0 (append_character e c) (cast_at cd m0)]> cd)))).
Proof.
  unfold characters_step, cast_at. intros H.
  destruct (ch_movie_id row) as [m0|] eqn:Hm; simpl in H; [|discriminate].
  exists m0. split; [done|].
  destruct (cd !! m0) as [per_movie|] eqn:Hcd; simpl in *.
  - right. destruct (ch_person_id row) as [p0|] eqn:Hp; simpl in H; [|discriminate].
    exists p0. split; [done|].
    destruct (od_get p0 per_movie) as [e|] eqn:He.
    + right. destruct (ch_name row) as [c|] eqn:Hc; simpl in H; [|discriminate].
      injection H as <-. eauto.
    + left. injection H as <-. eauto.
  - left. by injection H as <-.
Qed.

Lemma character_row_inert cd row m p :
  ch_movie_id row = Some m → ch_person_id row = Some p →
  od_get p (cast_at cd m) = None → characters_step cd row = Ok cd.
Proof.
  intros Hm Hp Hnone. unfold characters_step, cast_at in *. rewrite Hm. simpl.
  destruct (cd !! m) as [per_movie|]; simpl in *; [|done].
  rewrite Hp. simpl. by rewrite Hnone.
Qed.

Lemma characters_step_is_ok cd row :
  character_row_ok row → is_ok (characters_step cd row).
Proof.
  intros ([m Hm] & [p Hp] & [c Hc]). unfold characters_step.
  rewrite Hm, Hp, Hc. simpl.
  destruct (cd !! m) as [per_movie|]; simpl; [|by eexists].
  destruct (od_get p per_movie); by eexists.
Qed.

(** Step 6b keeps the keys of every movie, and extends each entry by
    the character rows of its pair, in their order. *)
Lemma add_characters_cast_at cd0 rows cd m :
  add_characters cd0 rows = Ok cd →
  od_keys (cast_at cd m) = od_keys (cast_at cd0 m) ∧
  ∀ p e, od_get p (cast_at cd m) = Some e →
    ∃ e0, od_get p (cast_at cd0 m) = Some e0 ∧ extended_by m p rows e0 e.
Proof.
  intros Hrun. revert m.
  loop_invariant (λ pre cd, ∀ m,
    od_keys (cast_at cd m) = od_keys (cast_at cd0 m) ∧
    ∀ p e, od_get p (cast_at cd m) = Some e →
      ∃ e0, od_get p (cast_at cd0 m) = Some e0 ∧ extended_by m p pre e0 e) from Hrun.
  { intros m. split; [done|]. intros p e He. exists e. split; [done|].
    apply extended_by_refl. }
  intros pre row d d' IH (m0 & Hm & Hcases)%characters_step_Ok m.
  destruct (IH m) as [IHk IHe].
  destruct Hcases as [[Hnone ->]|(p0 & Hp & [(Hsome & Hnone & ->)|(e1 & c & He1 & Hc & ->)])].
  - split; [done|]. intros p e He. destruct (IHe p e He) as (e0 & He0 & Hext).
    exists e0. split; [done|]. apply extended_by_skip; [|done].
    intros [Hm' _]. assert (m = m0) as -> by congruence.
    unfold cast_at in He. by rewrite Hnone in He.
  - split; [done|]. intros p e He. destruct (IHe p e He) as (e0 & He0 & Hext).
    exists e0. split; [done|]. apply extended_by_skip; [|done].
    intros [Hm' Hp']. assert (m = m0) as -> by congruence.
    assert (p = p0) as -> by congruence. congruence.
  - rewrite cast_at_insert. destruct (decide (m = m0)) as [->|Hne].
    + split; [by rewrite od_keys_set_old|].
      intros p e. destruct (decide (p = p0)) as [->|Hpne].
      * rewrite od_get_set_eq. intros [= <-].
        destruct (IHe p0 e1 He1) as (e0 & He0 & Hext).
        exists e0. split; [done|]. by apply extended_by_append.
      * rewrite od_get_set_ne by done. intros He.
        destruct (IHe p e He) as (e0 & He0 & Hext).
        exists e0. split; [done|]. apply extended_by_skip; [|done].
        intros [_ Hp']. congruence.
    + split; [done|]. intros p e He. destruct (IHe p e He) as (e0 & He0 & Hext).
      exists e0. split; [done|]. apply extended_by_skip; [|done].
      intros [Hm' _]. congruence.
Qed.

Lemma add_characters_is_ok cd rows :
  Forall character_row_ok rows → is_ok (add_characters cd rows).
Proof. apply for_each_is_ok. intros. by apply characters_step_is_ok. Qed.

(** ** Step 6 as a whole *)

Lemma fmap_Some_omap {A B} (f : A → option B) (l : list B) (rows : list A) :
  Some <$> l = f <$> rows → omap f rows = l.
Proof.
  revert l. induction rows as [|row rows IH]; intros [|b l]; simpl; try done.
  intros [= Hb Hl]. rewrite <-Hb. simpl. f_equal. by apply IH.
Qed.

Lemma build_cast_Ok pd prs chs cd :
  build_cast pd prs chs = Ok cd ↔
  ∃ cd0, load_principals pd prs = Ok cd0 ∧ add_characters cd0 chs = Ok cd.
Proof. unfold build_cast. apply bind_Ok. Qed.

Lemma build_cast_entries pd prs chs cd m :
  build_cast pd prs chs = Ok cd →
  od_keys (cast_at cd m) = first_seen (omap cr_person_id (credits_of m prs)) ∧
  ∀ p e, od_get p (cast_at cd m) = Some e →
    ce_person_id e = p ∧ ce_name e = person_name pd p ∧
    Some <$> ce_characters e = ch_name <$> characters_of m p chs.
Proof.
  intros (cd0 & H1 & H2)%build_cast_Ok.
  destruct (load_principals_cast_at _ _ _ m H1) as [Hk1 He1].
  destruct (add_characters_cast_at _ _ _ m H2) as [Hk2 He2].
  split; [congruence|]. intros p e He.
  destruct (He2 p e He) as (e0 & He0 & Hid & Hnm & Hch).
  apply He1 in He0 as ->. simpl in *. done.
Qed.

(** The cast list of a movie is the cast that the relations describe. *)
Lemma build_cast_values pd prs chs cd m :
  build_cast pd prs chs = Ok cd →
  od_values (cast_at cd m) = cast_of pd m prs chs.
Proof.
  intros Hrun. destruct (build_cast_entries _ _ _ _ m Hrun) as [Hk He].
  unfold cast_of. rewrite <-Hk. apply od_values_by_keys.
  - rewrite Hk. apply NoDup_first_seen.
  - intros p [pid nm chars] (Hid & Hnm & Hch)%He. simpl in *. subst.
    f_equal. symmetry. by apply fmap_Some_omap.
Qed.

Lemma build_cast_is_ok pd prs chs :
  Forall credit_row_ok prs → Forall character_row_ok chs →
  is_ok (build_cast pd prs chs).
Proof.
  intros Hprs Hchs. destruct (load_principals_is_ok pd prs Hprs) as [cd0 H0].
  destruct (add_characters_is_ok cd0 chs Hchs) as [cd H1].
  exists cd. apply build_cast_Ok. eauto.
Qed.

(** ** Steps 2 to 7 together *)

Lemma build_indices_Ok src idx :
  build_indices src = Ok idx ↔
    build_ratings (ratings src) = Ok (ratings_dict idx) ∧
    build_genres (genres src) = Ok (genres_dict idx) ∧
    build_persons (persons src) = Ok (persons_dict idx) ∧
    build_credits (persons_dict idx) (directors src) = Ok (directors_dict idx) ∧
    build_cast (persons_dict idx) (principals src) (characters src) = Ok (cast_dict idx) ∧
    build_credits (persons_dict idx) (writers src) = Ok (writers_dict idx).
Proof.
  unfold build_indices. split.
  - intros H.
    repeat (apply bind_Ok in H as (? & ? & H)). injection H as <-. simpl. done.
  - intros (H1 & H2 & H3 & H4 & H5 & H6).
    rewrite H1; simpl. rewrite H2; simpl. rewrite H3; simpl.
    rewrite H4; simpl. rewrite H5; simpl. rewrite H6; simpl. by destruct idx.
Qed.

Lemma build_indices_is_ok src : relations_ok src → is_ok (build_indices src).
Proof.
  intros (Hr & Hg & Hp & Hd & Hpr & Hch & Hw).
  destruct (build_ratings_is_ok _ Hr) as [rd Hrd].
  destruct (build_genres_is_ok _ Hg) as [gd Hgd].
  destruct (build_persons_is_ok _ Hp) as [pd Hpd].
  destruct (build_credits_is_ok pd _ Hd) as [dd Hdd].
  destruct (build_cast_is_ok pd _ _ Hpr Hch) as [cd Hcd].
  destruct (build_credits_is_ok pd _ Hw) as [wd Hwd].
  eexists {| ratings_dict := rd |}. apply build_indices_Ok. simpl. eauto 10.
Qed.

(** ** Step 8 *)

Lemma assemble_doc_Ok idx movie doc :
  assemble_doc idx movie = Ok doc ↔
  ∃ m title year,
    mv_movie_id movie = Some m ∧ mv_primary_title movie = Some title ∧
    mv_start_year movie = Some year ∧
    doc = {| doc_id := m;
             doc_title := title;
             doc_year := year;
             doc_runtime := default VNull (mv_runtime_minutes movie);
             doc_rating := default default_rating (ratings_dict idx !! m);
             doc_genres := default [] (genres_dict idx !! m);
             doc_directors := default [] (directors_dict idx !! m);
             doc_cast := od_values (cast_at (cast_dict idx) m);
             doc_writers := default [] (writers_dict idx !! m) |}.
Proof.
  unfold assemble_doc, cast_at. split.
  - intros H. step_inv H. injection H as <-. eexists _, _, _. split_and!; try done.
    by destruct (cast_dict idx !! _).
  - intros (m & title & year & -> & -> & -> & ->). simpl.
    by destruct (cast_dict idx !! _).
Qed.

Lemma assemble_doc_raises idx movie :
  raises (assemble_doc idx movie) ↔
  mv_movie_id movie = None ∨ mv_primary_title movie = None ∨ mv_start_year movie = None.
Proof.
  unfold assemble_doc, raises.
  destruct (mv_movie_id movie), (mv_primary_title movie), (mv_start_year movie);
    simpl; split; try (intros [e [=]]); try (intros [[=]|[[=]|[=]]]); eauto.
Qed.

Lemma assemble_doc_is_ok idx movie : movie_row_ok movie → is_ok (assemble_doc idx movie).
Proof.
  intros ([m Hm] & [t Ht] & [y Hy]). eexists. apply assemble_doc_Ok. eauto 10.
Qed.

Lemma assemble_step_Ok idx acc movie doc :
  assemble_doc idx movie = Ok doc → assemble_step idx acc movie = Ok (acc ++ [doc]).
Proof. unfold assemble_step. by intros ->. Qed.

Lemma assemble_step_Raise idx acc movie e :
  assemble_doc idx movie = Raise e → assemble_step idx acc movie = Raise e.
Proof. unfold assemble_step. by intros ->. Qed.

(** The documents are the movies, one by one and in order. *)
Lemma assemble_Ok idx movie_rows docs :
  assemble idx movie_rows = Ok docs ↔
  Forall2 (λ movie doc, assemble_doc idx movie = Ok doc) movie_rows docs.
Proof.
  unfold assemble. split.
  - intros Hrun.
    loop_invariant (λ pre acc, Forall2 (λ movie doc, assemble_doc idx movie = Ok doc) pre acc)
      from Hrun; [constructor|].
    intros pre row acc acc' IH (doc & Hdoc & [= <-])%bind_Ok.
    apply Forall2_app; [done|]. by repeat constructor.
  - assert (∀ acc, Forall2 (λ movie doc, assemble_doc idx movie = Ok doc) movie_rows docs →
      for_each (assemble_step idx) movie_rows acc = Ok (acc ++ docs)) as Hgen; [|apply Hgen].
    intros acc H. revert acc.
    induction H as [|movie doc rows ds Hdoc _ IH]; intros acc; cbn [for_each].
    + by rewrite app_nil_r.
    + rewrite (assemble_step_Ok _ _ _ _ Hdoc). simpl. rewrite IH.
      by rewrite <-app_assoc.
Qed.

Lemma assemble_raises idx movie_rows :
  raises (assemble idx movie_rows) ↔
  Exists (λ movie, raises (assemble_doc idx movie)) movie_rows.
Proof.
  unfold assemble. generalize (@nil complete_doc).
  induction movie_rows as [|movie rows IH]; intros acc; cbn [for_each].
  - split; [by intros [e [=]] | by intros ?%Exists_nil].
  - rewrite Exists_cons.
    destruct (assemble_doc idx movie) as [doc|e] eqn:Hdoc.
    + rewrite (assemble_step_Ok _ _ _ _ Hdoc). simpl.
      rewrite IH. split; [by right|]. by intros [[e [=]]|?].
    + rewrite (assemble_step_Raise _ _ _ _ Hdoc). simpl.
      split; [left|]; by exists e.
Qed.

Lemma build_documents_Ok src docs :
  build_documents src = Ok docs ↔
  ∃ idx, build_indices src = Ok idx ∧
    Forall2 (λ movie doc, assemble_doc idx movie = Ok doc) (movies src) docs.
Proof.
  unfold build_documents. rewrite bind_Ok. by setoid_rewrite assemble_Ok.
Qed.

Lemma build_documents_is_ok src :
  relations_ok src → Forall movie_row_ok (movies src) → is_ok (build_documents src).
Proof.
  intros [idx Hidx]%build_indices_is_ok Hmovies.
  unfold build_documents. rewrite Hidx. simpl.
  apply for_each_is_ok with (ok := movie_row_ok); [|done].
  intros acc movie [doc Hdoc]%(assemble_doc_is_ok idx).
  eexists. by apply assemble_step_Ok.
Qed.

(** ** Steps 9 and 10 *)

Lemma py_range_count_bounds stop step :
  0 < step →
  let n := (stop + step - 1) / step in
  stop ≤ n * step ∧ ∀ k, k < n → k * step < stop.
Proof.
  intros Hstep n.
  pose proof (Nat.div_mod_eq (stop + step - 1) step) as Hdm.
  pose proof (Nat.mod_upper_bound (stop + step - 1) step) as Hmod.
  fold n in Hdm. split; [nia|]. intros k Hk. nia.
Qed.

Lemma slice_batch {A} (l : list A) i n : slice l i (i + n) = take n (drop i l).
Proof. unfold slice. f_equal. lia. Qed.

Lemma concat_slices {A} (l : list A) n c :
  concat ((λ k, take n (drop (k * n) l)) <$> seq 0 c) = take (c * n) l.
Proof.
  induction c as [|c IH]; [done|].
  rewrite seq_S, fmap_app, concat_app, IH. simpl. rewrite app_nil_r.
  rewrite take_take_drop. f_equal. lia.
Qed.

Lemma written_batches_InsertMany batches :
  written_batches (InsertMany <$> batches) = batches.
Proof.
  unfold written_batches. induction batches as [|b bs IH]; [done|].
  simpl. f_equal. exact IH.
Qed.

Lemma insert_ops_InsertMany docs :
  insert_ops docs
  = InsertMany <$> ((λ k, take batch_size (drop (k * batch_size) docs))
      <$> seq 0 ((length docs + batch_size - 1) / batch_size)).
Proof.
  unfold insert_ops, py_range. rewrite <-!list_fmap_compose.
  apply list_fmap_ext. intros _ k _. simpl. f_equal. apply slice_batch.
Qed.

Lemma written_batches_insert_ops docs :
  written_batches (insert_ops docs)
  = (λ k, take batch_size (drop (k * batch_size) docs))
      <$> seq 0 ((length docs + batch_size - 1) / batch_size).
Proof. by rewrite insert_ops_InsertMany, written_batches_InsertMany. Qed.

(** The state of the collection after a drop, the batches and the
    index creations. *)
Lemma foldl_insert_many c batches :
  foldl apply_op c (InsertMany <$> batches)
  = {| documents := documents c ++ concat batches; indexes := indexes c |}.
Proof.
  revert c. induction batches as [|b bs IH]; intros c; simpl.
  - rewrite app_nil_r. by destruct c.
  - rewrite IH. simpl. by rewrite app_assoc.
Qed.

Lemma insert_ops_batches docs :
  insert_ops docs = InsertMany <$> written_batches (insert_ops docs).
Proof. by rewrite written_batches_insert_ops, insert_ops_InsertMany. Qed.

Lemma concat_written_batches docs : concat (written_batches (insert_ops docs)) = docs.
Proof.
  rewrite written_batches_insert_ops, concat_slices.
  apply take_ge. apply py_range_count_bounds. unfold batch_size. lia.
Qed.

Lemma load_ops_final c docs :
  foldl apply_op c (load_ops docs) = {| documents := docs; indexes := index_keys |}.
Proof.
  unfold load_ops. simpl. rewrite foldl_app, insert_ops_batches, foldl_insert_many.
  simpl. by rewrite concat_written_batches.
Qed.

Lemma run_Ok src c docs :
  build_documents src = Ok docs →
  run src c = {| documents := docs; indexes := index_keys |}.
Proof. unfold run, build_movies_complete. intros ->. apply load_ops_final. Qed.


(** ** A document in terms of the relations *)

Lemma build_documents_elem_of src docs d :
  build_documents src = Ok docs → d ∈ docs →
  ∃ idx movie, build_indices src = Ok idx ∧ movie ∈ movies src ∧
    assemble_doc idx movie = Ok d.
Proof.
  intros (idx & Hidx & Hall)%build_documents_Ok (i & Hi)%list_elem_of_lookup.
  destruct (Forall2_lookup_r _ _ _ _ _ Hall Hi) as (movie & Hmovie & Hdoc).
  exists idx, movie. split_and!; [done| |done].
  apply list_elem_of_lookup. by exists i.
Qed.

(** Every field of an assembled document, read off the source. *)
Lemma document_fields src idx movie d :
  build_indices src = Ok idx → assemble_doc idx movie = Ok d →
  let m := doc_id d in
  let pd := persons_dict idx in
  mv_movie_id movie = Some m ∧
  mv_primary_title movie = Some (doc_title d) ∧
  mv_start_year movie = Some (doc_year d) ∧
  doc_runtime d = default VNull (mv_runtime_minutes movie) ∧
  doc_rating d = default default_rating (last (ratings_of m (ratings src)) ≫= rating_of_row) ∧
  Some <$> doc_genres d = gn_genre <$> genres_of m (genres src) ∧
  Some <$> doc_directors d = credit_ref pd <$> credits_of m (directors src) ∧
  doc_cast d = cast_of pd m (principals src) (characters src) ∧
  Some <$> doc_writers d = credit_ref pd <$> credits_of m (writers src).
Proof.
  intros (Hr & Hg & Hp & Hd & Hc & Hw)%build_indices_Ok
         (m & title & year & Hm & Ht & Hy & ->)%assemble_doc_Ok. simpl.
  split_and!; try done.
  - by rewrite (build_ratings_lookup _ _ m Hr).
  - by apply build_genres_lookup.
  - by apply build_credits_lookup.
  - by apply build_cast_values.
  - by apply build_credits_lookup.
Qed.

Lemma cast_of_person_ids pd m prs chs :
  ce_person_id <$> cast_of pd m prs chs
  = first_seen (omap cr_person_id (credits_of m prs)).
Proof.
  unfold cast_of. rewrite <-list_fmap_compose. apply list_fmap_id.
Qed.

Lemma assemble_length idx movie_rows docs :
  assemble idx movie_rows = Ok docs → length docs = length movie_rows.
Proof. intros H%assemble_Ok. symmetry. by eapply Forall2_length. Qed.

Lemma build_documents_length src docs :
  build_documents src = Ok docs → length docs = length (movies src).
Proof.
  intros (idx & _ & H)%build_documents_Ok. symmetry. by eapply Forall2_length.
Qed.

(** On rows that all have their [movie_id], the title and the year are
    what the assembly can miss. *)
Lemma assemble_raises_with_ids idx movie_rows :
  Forall (λ mv, is_Some (mv_movie_id mv)) movie_rows →
  raises (assemble idx movie_rows) ↔
  Exists (λ mv, mv_primary_title mv = None ∨ mv_start_year mv = None) movie_rows.
Proof.
  intros Hids. rewrite assemble_raises, !Exists_exists.
  split; intros (mv & Hin & H); exists mv; (split; [done|]).
  - apply assemble_doc_raises in H as [Hm|H]; [|done].
    rewrite Forall_forall in Hids. destruct (Hids mv Hin) as [m Hm']. congruence.
  - apply assemble_doc_raises. by right.
Qed.

(** ** Orphaned character rows *)

Lemma for_each_app {S R} (body : S → R → result S) rows1 rows2 st :
  for_each body (rows1 ++ rows2) st = for_each body rows1 st ≫= for_each body rows2.
Proof.
  revert st. induction rows1 as [|r rows1 IH]; intros st; simpl; [done|].
  destruct (body st r); simpl; [apply IH | done].
Qed.

Lemma add_characters_orphan cd0 pre row post m p :
  ch_movie_id row = Some m → ch_person_id row = Some p →
  od_get p (cast_at cd0 m) = None →
  add_characters cd0 (pre ++ row :: post) = add_characters cd0 (pre ++ post).
Proof.
  intros Hm Hp Hnone. unfold add_characters. rewrite !for_each_app.
  destruct (for_each characters_step pre cd0) as [cd|e] eqn:Hpre; simpl; [|done].
  destruct (add_characters_cast_at _ _ _ m Hpre) as [Hkeys _].
  assert (od_get p (cast_at cd m) = None) as Hnone'.
  { apply od_get_None. rewrite Hkeys. by apply od_get_None. }
  by rewrite (character_row_inert cd row m p Hm Hp Hnone').
Qed.

(** A character row whose pair has no principal row can be taken out of
    the characters relation: the run assembles the same documents, or
    raises the same error. *)
Lemma orphan_character_row_is_inert src pre row post m p :
  characters src = pre ++ row :: post →
  ch_movie_id row = Some m → ch_person_id row = Some p →
  ¬ has_credit m p (principals src) →
  build_documents src = build_documents (with_characters src (pre ++ post)).
Proof.
  intros Hchs Hm Hp Hno. unfold build_documents, build_indices. simpl.
  destruct (build_ratings _); simpl; [|done].
  destruct (build_genres _); simpl; [|done].
  destruct (build_persons _) as [pd|]; simpl; [|done].
  destruct (build_credits pd (directors src)); simpl; [|done].
  assert (build_cast pd (principals src) (characters src)
          = build_cast pd (principals src) (pre ++ post)) as ->; [|done].
  unfold build_cast. rewrite Hchs.
  destruct (load_principals pd (principals src)) as [cd0|] eqn:Hcd0; simpl; [|done].
  eapply add_characters_orphan; [done..|].
  destruct (load_principals_cast_at _ _ _ m Hcd0) as [Hkeys _].
  apply od_get_None. rewrite Hkeys, elem_of_first_seen, list_elem_of_omap.
  intros (r & [Hr Hin]%list_elem_of_filter & Hrp). apply Hno. by exists r.
Qed.

(** * The properties of the pipeline *)

(** C1. The Document Assembler produces exactly one document per movie
    record: on movie records that carry their id, title and year it
    returns, whatever the indices, as many documents as there are records,
    and the i-th document is keyed by the id of the i-th record. *)
Theorem one_document_per_movie (idx : indices) (movie_rows : list movie_row) :
  Forall movie_row_ok movie_rows →
  ∃ docs, assemble idx movie_rows = Ok docs ∧
    length docs = length movie_rows ∧
    Some <$> (doc_id <$> docs) = mv_movie_id <$> movie_rows.
Proof.
  intros Hok.
  destruct (for_each_is_ok (assemble_step idx) movie_row_ok movie_rows []) as [docs Hdocs];
    [|done|].
  { intros acc row [doc Hdoc]%(assemble_doc_is_ok idx).
    eexists. by apply assemble_step_Ok. }
  exists docs. split_and!; [done|by apply assemble_length in Hdocs|].
  apply assemble_Ok in Hdocs. clear Hok.
  induction Hdocs as [|row doc rows ds Hdoc _ IH]; [done|].
  apply assemble_doc_Ok in Hdoc as (m & t & y & Hm & _ & _ & ->).
  simpl. rewrite Hm. f_equal. exact IH.
Qed.

Lemma one_document_per_movie_witness :
  Forall movie_row_ok (movies orphan_source) ∧
  ∃ docs, assemble no_indices (movies orphan_source) = Ok docs ∧
    length docs = length (movies orphan_source) ∧
    Some <$> (doc_id <$> docs) = mv_movie_id <$> movies orphan_source.
Proof.
  assert (Forall movie_row_ok (movies orphan_source)) as Hok.
  { repeat constructor; by eexists. }
  split; [exact Hok|]. exact (one_document_per_movie no_indices _ Hok).
Defined.

(** C2. In every assembled document each person occurs at most once in
    the cast, and the characters of a cast entry are exactly the names of
    the character rows of that movie and person, all of them, in the order
    of the characters relation and with repetitions kept. *)
Theorem cast_entries_exact (src : source) (docs : list complete_doc) :
  build_documents src = Ok docs →
  Forall (λ d,
    NoDup (ce_person_id <$> doc_cast d) ∧
    Forall (λ e,
      Some <$> ce_characters e
      = ch_name <$> characters_of (doc_id d) (ce_person_id e) (characters src))
      (doc_cast d)) docs.
Proof.
  intros Hrun. apply Forall_forall. intros d Hd.
  destruct (build_documents_elem_of _ _ _ Hrun Hd) as (idx & movie & Hidx & _ & Hdoc).
  pose proof (document_fields _ _ _ _ Hidx Hdoc) as (_ & _ & _ & _ & _ & _ & _ & Hcast & _).
  apply build_indices_Ok in Hidx as (_ & _ & _ & _ & Hc & _).
  apply assemble_doc_Ok in Hdoc as (m & t & y & _ & _ & _ & ->). simpl in *.
  destruct (build_cast_entries _ _ _ _ m Hc) as [Hk He].
  split.
  - rewrite Hcast, cast_of_person_ids. apply NoDup_first_seen.
  - apply Forall_forall. intros e ([p e'] & -> & Hin)%list_elem_of_fmap. simpl.
    apply od_elem_of_get in Hin; [|rewrite Hk; apply NoDup_first_seen].
    by destruct (He p e' Hin) as (-> & _ & ?).
Qed.

Lemma cast_entries_exact_witness :
  build_documents orphan_source = Ok orphan_docs ∧
  Forall (λ d,
    NoDup (ce_person_id <$> doc_cast d) ∧
    Forall (λ e,
      Some <$> ce_characters e
      = ch_name <$> characters_of (doc_id d) (ce_person_id e) (characters orphan_source))
      (doc_cast d)) orphan_docs.
Proof.
  assert (build_documents orphan_source = Ok orphan_docs) as Hrun by reflexivity.
  split; [exact Hrun|]. exact (cast_entries_exact _ _ Hrun).
Defined.

(** C3. A movie without rows in an association relation still has the
    field in its document, with the default: the rating
    [{average: null, votes: 0}] without a rating row, and an empty
    sequence of genres, directors, cast or writers without rows in the
    respective relation.  The five fields are present in every document. *)
Theorem absent_associations_default (src : source) (docs : list complete_doc) :
  build_documents src = Ok docs →
  Forall (λ d,
    let m := doc_id d in
    let bson := bson_of_complete_doc d in
    (doc_get "rating" bson = Some (bson_of_rating (doc_rating d)) ∧
     doc_get "genres" bson = Some (VList (doc_genres d)) ∧
     doc_get "directors" bson = Some (VList (bson_of_person_ref <$> doc_directors d)) ∧
     doc_get "cast" bson = Some (VList (bson_of_cast_entry <$> doc_cast d)) ∧
     doc_get "writers" bson = Some (VList (bson_of_person_ref <$> doc_writers d))) ∧
    (ratings_of m (ratings src) = [] →
       doc_rating d = {| average := VNull; votes := VInt 0 |}) ∧
    (genres_of m (genres src) = [] → doc_genres d = []) ∧
    (credits_of m (directors src) = [] → doc_directors d = []) ∧
    (credits_of m (principals src) = [] → doc_cast d = []) ∧
    (credits_of m (writers src) = [] → doc_writers d = [])) docs.
Proof.
  intros Hrun. apply Forall_forall. intros d Hd.
  destruct (build_documents_elem_of _ _ _ Hrun Hd) as (idx & movie & Hidx & _ & Hdoc).
  pose proof (document_fields _ _ _ _ Hidx Hdoc)
    as (_ & _ & _ & _ & Hr & Hg & Hdir & Hcast & Hw).
  simpl. split_and!; try done.
  - intros E. by rewrite Hr, E.
  - intros E. rewrite E in Hg. by apply fmap_nil_inv in Hg.
  - intros E. rewrite E in Hdir. by apply fmap_nil_inv in Hdir.
  - intros E. rewrite Hcast. unfold cast_of. by rewrite E.
  - intros E. rewrite E in Hw. by apply fmap_nil_inv in Hw.
Qed.

Lemma absent_associations_default_witness :
  build_documents (bare_source 2) = Ok [bare_doc; bare_doc] ∧
  Forall (λ d,
    (doc_get "rating" (bson_of_complete_doc d)
       = Some (VDoc [("average", VNull); ("votes", VInt 0)]) ∧
     doc_get "genres" (bson_of_complete_doc d) = Some (VList []) ∧
     doc_get "directors" (bson_of_complete_doc d) = Some (VList []) ∧
     doc_get "cast" (bson_of_complete_doc d) = Some (VList []) ∧
     doc_get "writers" (bson_of_complete_doc d) = Some (VList []))) [bare_doc; bare_doc].
Proof.
  assert (build_documents (bare_source 2) = Ok [bare_doc; bare_doc]) as Hrun by reflexivity.
  split; [exact Hrun|].
  pose proof (absent_associations_default _ _ Hrun) as H.
  eapply Forall_impl; [exact H|].
  intros d (_ & Hr & Hg & Hd & Hc & Hw). simpl.
  rewrite Hr, Hg, Hd, Hc, Hw by done. done.
Defined.

Lemma credit_ref_elem_of pd m p rows (refs : list person_ref) :
  Some <$> refs = credit_ref pd <$> credits_of m rows →
  has_credit m p rows →
  {| pr_person_id := p; pr_name := person_name pd p |} ∈ refs.
Proof.
  intros Hrefs (row & Hin & Hm & Hp).
  assert (Some {| pr_person_id := p; pr_name := person_name pd p |} ∈ Some <$> refs) as Hel.
  { rewrite Hrefs. apply list_elem_of_fmap. exists row. split.
    - unfold credit_ref. by rewrite Hp.
    - unfold credits_of. by apply list_elem_of_filter. }
  apply list_elem_of_fmap in Hel as (r & [= ->] & Hr). done.
Qed.

Lemma cast_of_elem_of pd m p prs chs :
  has_credit m p prs →
  ∃ e, e ∈ cast_of pd m prs chs ∧ ce_person_id e = p ∧ ce_name e = person_name pd p.
Proof.
  intros (row & Hin & Hm & Hp).
  exists {| ce_person_id := p; ce_name := person_name pd p;
            ce_characters := omap ch_name (characters_of m p chs) |}.
  split; [|done].
  unfold cast_of. apply list_elem_of_fmap. exists p. split; [done|].
  apply elem_of_first_seen, list_elem_of_omap. exists row. split; [|done].
  unfold credits_of. by apply list_elem_of_filter.
Qed.

(** C4. A person id that the directors, principals or writers refer to
    and that has no row in persons resolves to the name "Unknown"; the
    lookup is a total function, and the referring row is kept: the
    document of its movie has a director, cast or writer entry for that
    person id, named "Unknown". *)
Theorem orphan_person_is_unknown (src : source) (docs : list complete_doc) (p : string) :
  build_documents src = Ok docs →
  ¬ has_person p (persons src) →
  (∀ pd, build_persons (persons src) = Ok pd → person_name pd p = VStr "Unknown") ∧
  Forall (λ d,
    let m := doc_id d in
    (has_credit m p (directors src) →
       {| pr_person_id := p; pr_name := VStr "Unknown" |} ∈ doc_directors d) ∧
    (has_credit m p (principals src) →
       ∃ e, e ∈ doc_cast d ∧ ce_person_id e = p ∧ ce_name e = VStr "Unknown") ∧
    (has_credit m p (writers src) →
       {| pr_person_id := p; pr_name := VStr "Unknown" |} ∈ doc_writers d)) docs.
Proof.
  intros Hrun Hno. split.
  { intros pd Hpd. apply person_name_absent. by eapply build_persons_absent. }
  apply Forall_forall. intros d Hd.
  destruct (build_documents_elem_of _ _ _ Hrun Hd) as (idx & movie & Hidx & _ & Hdoc).
  pose proof (document_fields _ _ _ _ Hidx Hdoc)
    as (_ & _ & _ & _ & _ & _ & Hdir & Hcast & Hw).
  apply build_indices_Ok in Hidx as (_ & _ & Hp & _).
  assert (person_name (persons_dict idx) p = VStr "Unknown") as Hname.
  { apply person_name_absent. by eapply build_persons_absent. }
  simpl. rewrite <-Hname. split_and!.
  - by apply credit_ref_elem_of.
  - rewrite Hcast. apply cast_of_elem_of.
  - by apply credit_ref_elem_of.
Qed.

Lemma orphan_person_is_unknown_witness :
  build_documents orphan_source = Ok orphan_docs ∧
  ¬ has_person "p9" (persons orphan_source) ∧
  (∀ pd, build_persons (persons orphan_source) = Ok pd →
     person_name pd "p9" = VStr "Unknown") ∧
  Forall (λ d,
    let m := doc_id d in
    (has_credit m "p9" (directors orphan_source) →
       {| pr_person_id := "p9"; pr_name := VStr "Unknown" |} ∈ doc_directors d) ∧
    (has_credit m "p9" (principals orphan_source) →
       ∃ e, e ∈ doc_cast d ∧ ce_person_id e = "p9" ∧ ce_name e = VStr "Unknown") ∧
    (has_credit m "p9" (writers orphan_source) →
       {| pr_person_id := "p9"; pr_name := VStr "Unknown" |} ∈ doc_writers d)) orphan_docs.
Proof.
  assert (build_documents orphan_source = Ok orphan_docs) as Hrun by reflexivity.
  assert (¬ has_person "p9" (persons orphan_source)) as Hno.
  { intros (row & Hin & Hp). simpl in Hin.
    apply list_elem_of_singleton in Hin as ->. discriminate Hp. }
  split; [exact Hrun|]. split; [exact Hno|].
  exact (orphan_person_is_unknown _ _ _ Hrun Hno).
Defined.

(** C5, as stated.  On the scenario the pipeline does not write the
    document whose key field is named [id]. *)
Lemma scenario_document_key_is_not_id :
  ¬ (∃ docs, build_documents alpha_source = Ok docs ∧
       bson_of_complete_doc <$> docs = [alpha_bson_id]).
Proof.
  intros (docs & Hrun & Hbson).
  assert (build_documents alpha_source = Ok [alpha_doc]) as Hrun' by reflexivity.
  rewrite Hrun' in Hrun. injection Hrun as <-. discriminate Hbson.
Qed.

(** C5, amended.  On the scenario the pipeline assembles one document
    and leaves exactly it in the destination: key [_id] = m1, title
    "Alpha", year 2000, runtime 100, rating 8.5 with 1000 votes, genres
    ["Drama"], director p2 "B. Director", cast p1 "A. Actor" with the
    characters "Hero" and "Narrator", and no writers. *)
Theorem scenario_document (c : collection) :
  build_documents alpha_source = Ok [alpha_doc] ∧
  bson_of_complete_doc <$> documents (run alpha_source c) = [alpha_bson].
Proof.
  assert (build_documents alpha_source = Ok [alpha_doc]) as Hrun by reflexivity.
  split; [exact Hrun|]. by rewrite (run_Ok _ _ _ Hrun).
Qed.



(** C7. The rating index of a sequence of rating rows is built without
    an error whether or not a movie id repeats, and it maps every movie id
    to the average and the votes of the last row of that id; an id without
    a row is not a key. *)
Theorem rating_last_row_wins (rows : list rating_row) :
  Forall rating_row_ok rows →
  ∃ rd, build_ratings rows = Ok rd ∧
    ∀ m, match last (ratings_of m rows) with
         | Some r =>
             ∃ avg nv, rt_average_rating r = Some avg ∧ rt_num_votes r = Some nv ∧
               rd !! m = Some {| average := avg; votes := nv |}
         | None => rd !! m = None
         end.
Proof.
  intros Hok. destruct (build_ratings_is_ok _ Hok) as [rd Hrd].
  exists rd. split; [done|]. intros m.
  rewrite (build_ratings_lookup _ _ m Hrd).
  destruct (last (ratings_of m rows)) as [r|] eqn:Hlast; [|done].
  assert (r ∈ rows) as Hin.
  { apply last_Some_elem_of in Hlast. unfold ratings_of in Hlast.
    by apply list_elem_of_filter in Hlast as [_ ?]. }
  rewrite Forall_forall in Hok. destruct (Hok r Hin) as (_ & [avg Havg] & [nv Hnv]).
  exists avg, nv. simpl. unfold rating_of_row. by rewrite Havg, Hnv.
Qed.

Lemma rating_last_row_wins_witness :
  Forall rating_row_ok repeated_ratings ∧
  ∃ rd, build_ratings repeated_ratings = Ok rd ∧
    rd !! "m1" = Some {| average := VReal (7 # 1); votes := VInt 70 |} ∧
    rd !! "m2" = Some {| average := VReal (6 # 1); votes := VInt 10 |} ∧
    rd !! "m3" = None.
Proof.
  assert (Forall rating_row_ok repeated_ratings) as Hok.
  { repeat constructor; by eexists. }
  split; [exact Hok|].
  destruct (rating_last_row_wins _ Hok) as (rd & Hrd & Hlookup).
  exists rd. split; [exact Hrd|]. split_and!.
  - by destruct (Hlookup "m1") as (avg & nv & [= <-] & [= <-] & ->).
  - by destruct (Hlookup "m2") as (avg & nv & [= <-] & [= <-] & ->).
  - exact (Hlookup "m3").
Defined.





(** C10, as stated.  A movie row that has its title and its year but no
    [movie_id] makes the assembly raise, although no row lacks
    [primary_title] or [start_year]. *)
Lemma missing_movie_id_raises :
  ¬ (raises (assemble no_indices [keyless_movie]) ↔
     Exists (λ mv, mv_primary_title mv = None ∨ mv_start_year mv = None) [keyless_movie]).
Proof.
  intros [Hraise _].
  assert (raises (assemble no_indices [keyless_movie])) as H.
  { by exists (KeyError "movie_id"). }
  apply Hraise, Exists_cons in H as [[[=]|[=]]|H%Exists_nil]. done.
Qed.

(** C10, amended.  The assembly raises if and only if some movie row
    lacks [movie_id], [primary_title] or [start_year]; it raises before
    any operation on the destination; a row with these three keys and no
    [runtime_minutes] is assembled, with a null runtime. *)
Theorem assembly_raises_iff_key_missing (idx : indices) (movie_rows : list movie_row) :
  (raises (assemble idx movie_rows) ↔
   Exists (λ mv, mv_movie_id mv = None ∨ mv_primary_title mv = None ∨
                 mv_start_year mv = None) movie_rows) ∧
  (∀ src e, build_documents src = Raise e → build_movies_complete src = ([], Raise e)) ∧
  (∀ mv, movie_row_ok mv → mv_runtime_minutes mv = None →
     ∃ d, assemble_doc idx mv = Ok d ∧ doc_runtime d = VNull ∧
       doc_get "runtime" (bson_of_complete_doc d) = Some VNull).
Proof.
  split_and!.
  - rewrite assemble_raises. apply Exists_proper; [|done].
    intros mv. apply assemble_doc_raises.
  - intros src e Hrun. unfold build_movies_complete. by rewrite Hrun.
  - intros mv ([m Hm] & [t Ht] & [y Hy]) Hrt.
    eexists. split; [apply assemble_doc_Ok; eauto 10|]. simpl. by rewrite Hrt.
Qed.

(** * Further properties *)

(** ** The multi-valued fields of a document *)

Lemma person_name_resolve rows pd p :
  build_persons rows = Ok pd → person_name pd p = resolve rows p.
Proof.
  intros Hpd. unfold person_name, resolve. by rewrite (build_persons_lookup _ _ p Hpd).
Qed.

Lemma credit_refs_person_ids pd (refs : list person_ref) rows :
  Some <$> refs = credit_ref pd <$> rows →
  Some <$> (pr_person_id <$> refs) = cr_person_id <$> rows ∧
  Forall (λ r, pr_name r = person_name pd (pr_person_id r)) refs.
Proof.
  revert rows. induction refs as [|r refs IH]; intros [|row rows]; try done.
  rewrite !fmap_cons. intros [= Hr Hrefs]. destruct (IH _ Hrefs) as [Hids Hnames].
  unfold credit_ref in Hr. destruct (cr_person_id row) as [p|]; [|done].
  injection Hr as ->. split; [|by constructor].
  rewrite <-Hids. done.
Qed.

Lemma first_seen_first_occurrences l : first_seen l = reverse (remove_dups (reverse l)).
Proof.
  induction l as [|p l IH] using rev_ind; [done|].
  rewrite first_seen_snoc, reverse_snoc. simpl.
  destruct (decide_rel (∈) p (reverse l)) as [Hr|Hr]; rewrite elem_of_reverse in Hr;
    destruct (decide (p ∈ first_seen l)) as [Hin|Hin];
    rewrite elem_of_first_seen in Hin; try done.
  by rewrite reverse_cons, IH.
Qed.

Lemma length_first_seen l : length (first_seen l) = distinct l.
Proof.
  unfold distinct. apply Permutation_length, NoDup_Permutation.
  - apply NoDup_first_seen.
  - apply NoDup_remove_dups.
  - intros p. by rewrite elem_of_first_seen, elem_of_remove_dups.
Qed.

(** X1. The genres of a document are the genres of the genre rows of
    its movie, one per row, in the order of the relation, repeated rows
    repeated. *)
Theorem document_genres_in_order (src : source) (docs : list complete_doc) :
  build_documents src = Ok docs →
  Forall (λ d, Some <$> doc_genres d = gn_genre <$> genres_of (doc_id d) (genres src)) docs.
Proof.
  intros Hrun. apply Forall_forall. intros d Hd.
  destruct (build_documents_elem_of _ _ _ Hrun Hd) as (idx & movie & Hidx & _ & Hdoc).
  by pose proof (document_fields _ _ _ _ Hidx Hdoc) as (_ & _ & _ & _ & _ & Hg & _).
Qed.

Lemma document_genres_in_order_witness :
  build_documents genre_source = Ok genre_docs ∧
  Forall (λ d, Some <$> doc_genres d = gn_genre <$> genres_of (doc_id d) (genres genre_source))
    genre_docs ∧
  doc_genres <$> genre_docs = [[VStr "Drama"; VStr "Crime"; VStr "Drama"]; [VStr "Comedy"]].
Proof.
  assert (build_documents genre_source = Ok genre_docs) as Hrun by reflexivity.
  split; [exact Hrun|]. split; [exact (document_genres_in_order _ _ Hrun)|reflexivity].
Defined.

(** X2. The directors of a document are the persons of the director rows
    of its movie, one entry per row and in the order of the relation; a
    person with two rows has two entries.  The same holds of the writers. *)
Theorem document_credits_in_order (src : source) (docs : list complete_doc) :
  build_documents src = Ok docs →
  Forall (λ d,
    Some <$> (pr_person_id <$> doc_directors d)
      = cr_person_id <$> credits_of (doc_id d) (directors src) ∧
    Some <$> (pr_person_id <$> doc_writers d)
      = cr_person_id <$> credits_of (doc_id d) (writers src)) docs.
Proof.
  intros Hrun. apply Forall_forall. intros d Hd.
  destruct (build_documents_elem_of _ _ _ Hrun Hd) as (idx & movie & Hidx & _ & Hdoc).
  pose proof (document_fields _ _ _ _ Hidx Hdoc) as (_ & _ & _ & _ & _ & _ & Hdir & _ & Hw).
  split; by eapply credit_refs_person_ids.
Qed.

Lemma document_credits_in_order_witness :
  build_documents genre_source = Ok genre_docs ∧
  Forall (λ d,
    Some <$> (pr_person_id <$> doc_directors d)
      = cr_person_id <$> credits_of (doc_id d) (directors genre_source) ∧
    Some <$> (pr_person_id <$> doc_writers d)
      = cr_person_id <$> credits_of (doc_id d) (writers genre_source)) genre_docs ∧
  (λ d, pr_person_id <$> doc_directors d) <$> genre_docs = [["p2"; "p1"; "p2"]; []].
Proof.
  assert (build_documents genre_source = Ok genre_docs) as Hrun by reflexivity.
  split; [exact Hrun|]. split; [exact (document_credits_in_order _ _ Hrun)|reflexivity].
Defined.

(** X3. The cast of a document lists the persons of the principal rows
    of its movie in the order of their first appearance, each once: a
    person is in the cast exactly when a principal row links it to the
    movie, and the length of the cast is the number of distinct persons
    among those rows. *)
Theorem document_cast_members (src : source) (docs : list complete_doc) :
  build_documents src = Ok docs →
  Forall (λ d,
    let ps := omap cr_person_id (credits_of (doc_id d) (principals src)) in
    ce_person_id <$> doc_cast d = reverse (remove_dups (reverse ps)) ∧
    length (doc_cast d) = distinct ps ∧
    ∀ p, p ∈ ce_person_id <$> doc_cast d ↔ has_credit (doc_id d) p (principals src)) docs.
Proof.
  intros Hrun. apply Forall_forall. intros d Hd.
  destruct (build_documents_elem_of _ _ _ Hrun Hd) as (idx & movie & Hidx & _ & Hdoc).
  pose proof (document_fields _ _ _ _ Hidx Hdoc) as (_ & _ & _ & _ & _ & _ & _ & Hcast & _).
  simpl. rewrite Hcast, cast_of_person_ids. split_and!.
  - apply first_seen_first_occurrences.
  - rewrite <-length_first_seen, <-(cast_of_person_ids (persons_dict idx) _ _ (characters src)).
    by rewrite length_fmap.
  - intros p. rewrite elem_of_first_seen, list_elem_of_omap. unfold has_credit, credits_of.
    split; intros (row & Hrow & Hp); exists row.
    + apply list_elem_of_filter in Hrow as [? ?]. done.
    + destruct Hp as [? ?]. split; [|done]. by apply list_elem_of_filter.
Qed.

Lemma document_cast_members_witness :
  build_documents orphan_source = Ok orphan_docs ∧
  Forall (λ d,
    let ps := omap cr_person_id (credits_of (doc_id d) (principals orphan_source)) in
    ce_person_id <$> doc_cast d = reverse (remove_dups (reverse ps)) ∧
    length (doc_cast d) = distinct ps ∧
    ∀ p, p ∈ ce_person_id <$> doc_cast d
         ↔ has_credit (doc_id d) p (principals orphan_source)) orphan_docs ∧
  (λ d, ce_person_id <$> doc_cast d) <$> orphan_docs = [["p1"; "p2"]; ["p9"]].
Proof.
  assert (build_documents orphan_source = Ok orphan_docs) as Hrun by reflexivity.
  split; [exact Hrun|]. split; [exact (document_cast_members _ _ Hrun)|reflexivity].
Defined.

(** X4. Every director, cast and writer entry of every document carries
    the name under which the persons relation resolves its person id: the
    name of the last persons row of that id, or "Unknown" without one.  A
    person has the same name wherever it occurs. *)
Theorem entry_names_resolved (src : source) (docs : list complete_doc) :
  build_documents src = Ok docs →
  Forall (λ d,
    Forall (λ r, pr_name r = resolve (persons src) (pr_person_id r)) (doc_directors d) ∧
    Forall (λ e, ce_name e = resolve (persons src) (ce_person_id e)) (doc_cast d) ∧
    Forall (λ r, pr_name r = resolve (persons src) (pr_person_id r)) (doc_writers d)) docs.
Proof.
  intros Hrun. apply Forall_forall. intros d Hd.
  destruct (build_documents_elem_of _ _ _ Hrun Hd) as (idx & movie & Hidx & _ & Hdoc).
  pose proof (document_fields _ _ _ _ Hidx Hdoc)
    as (_ & _ & _ & _ & _ & _ & Hdir & Hcast & Hw).
  apply build_indices_Ok in Hidx as (_ & _ & Hp & _).
  pose proof (λ p, person_name_resolve _ _ p Hp) as Hname.
  split_and!.
  - apply credit_refs_person_ids in Hdir as [_ Hdir].
    eapply Forall_impl; [exact Hdir|]. intros r Hr. simpl in Hr. by rewrite Hr.
  - rewrite Hcast. unfold cast_of. apply Forall_fmap, Forall_forall. intros p _. simpl.
    apply Hname.
  - apply credit_refs_person_ids in Hw as [_ Hw].
    eapply Forall_impl; [exact Hw|]. intros r Hr. simpl in Hr. by rewrite Hr.
Qed.

Lemma entry_names_resolved_witness :
  build_documents renamed_source = Ok renamed_docs ∧
  Forall (λ d,
    Forall (λ r, pr_name r = resolve (persons renamed_source) (pr_person_id r))
      (doc_directors d) ∧
    Forall (λ e, ce_name e = resolve (persons renamed_source) (ce_person_id e))
      (doc_cast d) ∧
    Forall (λ r, pr_name r = resolve (persons renamed_source) (pr_person_id r))
      (doc_writers d)) renamed_docs ∧
  resolve (persons renamed_source) "p1" = VStr "A. Actress" ∧
  resolve (persons renamed_source) "p7" = VStr "Unknown".
Proof.
  assert (build_documents renamed_source = Ok renamed_docs) as Hrun by reflexivity.
  split; [exact Hrun|]. split; [exact (entry_names_resolved _ _ Hrun)|].
  split; reflexivity.
Defined.

(** ** When the build raises *)

Lemma raises_Ok {A} (a : A) : ¬ raises (Ok a).
Proof. by intros [e [=]]. Qed.

Lemma raises_Raise {A} e : raises (@Raise A e).
Proof. by exists e. Qed.

Lemma raises_or_ok {A} (r : result A) : raises r ∨ is_ok r.
Proof. destruct r as [a|e]; [right; by exists a | left; by exists e]. Qed.

Lemma raises_not_ok {A} (r : result A) : raises r ↔ ¬ is_ok r.
Proof.
  destruct r as [a|e]; split.
  - by intros ?%raises_Ok.
  - intros H. destruct H. by exists a.
  - intros _ [a [=]].
  - intros _. apply raises_Raise.
Qed.

Lemma bind_raises {A B} (f : A → result B) (r : result A) :
  raises (r ≫= f) ↔ raises r ∨ ∃ a, r = Ok a ∧ raises (f a).
Proof.
  destruct r as [a|e]; simpl; split.
  - intros H. right. by exists a.
  - intros [?%raises_Ok|(a' & [= <-] & H)]; done.
  - intros _. left. apply raises_Raise.
  - intros _. apply raises_Raise.
Qed.

(** A loop raises exactly when one of its rows makes the body raise,
    where the states that the loop goes through satisfy [J]. *)
Lemma for_each_raises {S R} (body : S → R → result S) (J : S → Prop) (bad : R → Prop)
    rows st :
  (∀ s row s', J s → body s row = Ok s' → J s') →
  (∀ s row, J s → raises (body s row) ↔ bad row) →
  J st → raises (for_each body rows st) ↔ Exists bad rows.
Proof.
  intros Hkeep Hbad. revert st.
  induction rows as [|row rows IH]; intros st Hst; cbn [for_each].
  - split; [by intros ?%raises_Ok | by intros ?%Exists_nil].
  - rewrite Exists_cons, bind_raises, (Hbad st row Hst). split.
    + intros [?|(s' & Hs' & Hrest)]; [by left|]. right.
      apply (IH s'); [by eapply Hkeep|done].
    + intros [?|Hrest]; [by left|].
      destruct (raises_or_ok (body st row)) as [Hr|[s' Hs']].
      * left. by apply (Hbad st row Hst).
      * right. exists s'. split; [done|]. apply (IH s'); [by eapply Hkeep|done].
Qed.

Lemma ratings_step_raises rd row : raises (ratings_step rd row) ↔ ¬ rating_row_ok row.
Proof.
  rewrite raises_not_ok. apply not_iff_compat. split.
  - intros [rd' (m & avg & nv & Hm & Ha & Hn & _)%ratings_step_Ok].
    unfold rating_row_ok. rewrite Hm, Ha, Hn. eauto.
  - intros ([m Hm] & [avg Ha] & [nv Hn]). eexists. apply ratings_step_Ok. eauto 10.
Qed.

Lemma genres_step_raises gd row : raises (genres_step gd row) ↔ ¬ genre_row_ok row.
Proof.
  rewrite raises_not_ok. apply not_iff_compat. split.
  - intros [gd' (m & g & Hm & Hg & _)%genres_step_Ok].
    unfold genre_row_ok. rewrite Hm, Hg. eauto.
  - intros ([m Hm] & [g Hg]). eexists. apply genres_step_Ok. eauto 10.
Qed.

Lemma persons_step_raises pd row : raises (persons_step pd row) ↔ ¬ person_row_ok row.
Proof.
  rewrite raises_not_ok. apply not_iff_compat. split.
  - intros [pd' (p & nm & Hp & Hnm & _)%persons_step_Ok].
    unfold person_row_ok. rewrite Hp, Hnm. eauto.
  - intros ([p Hp] & [nm Hnm]). eexists. apply persons_step_Ok. eauto 10.
Qed.

Lemma credits_step_raises pd cd row :
  raises (credits_step pd cd row) ↔ ¬ credit_row_ok row.
Proof.
  rewrite raises_not_ok. apply not_iff_compat. split.
  - intros [cd' (m & p & Hm & Hp & _)%credits_step_Ok].
    unfold credit_row_ok. rewrite Hm, Hp. eauto.
  - intros ([m Hm] & [p Hp]). eexists. apply credits_step_Ok. eauto 10.
Qed.

Lemma principals_step_raises pd cd row :
  raises (principals_step pd cd row) ↔ ¬ credit_row_ok row.
Proof.
  rewrite raises_not_ok. apply not_iff_compat. split.
  - intros [cd' (m & p & Hm & Hp & _)%principals_step_Ok].
    unfold credit_row_ok. rewrite Hm, Hp. eauto.
  - apply principals_step_is_ok.
Qed.

Lemma build_ratings_raises rows :
  raises (build_ratings rows) ↔ Exists (λ r, ¬ rating_row_ok r) rows.
Proof.
  apply (for_each_raises _ (λ _, True)); [done| |done].
  intros rd row _. apply ratings_step_raises.
Qed.

Lemma build_genres_raises rows :
  raises (build_genres rows) ↔ Exists (λ r, ¬ genre_row_ok r) rows.
Proof.
  apply (for_each_raises _ (λ _, True)); [done| |done].
  intros gd row _. apply genres_step_raises.
Qed.

Lemma build_persons_raises rows :
  raises (build_persons rows) ↔ Exists (λ r, ¬ person_row_ok r) rows.
Proof.
  apply (for_each_raises _ (λ _, True)); [done| |done].
  intros pd row _. apply persons_step_raises.
Qed.

Lemma build_credits_raises pd rows :
  raises (build_credits pd rows) ↔ Exists (λ r, ¬ credit_row_ok r) rows.
Proof.
  apply (for_each_raises _ (λ _, True)); [done| |done].
  intros cd row _. apply credits_step_raises.
Qed.

Lemma load_principals_raises pd rows :
  raises (load_principals pd rows) ↔ Exists (λ r, ¬ credit_row_ok r) rows.
Proof.
  apply (for_each_raises _ (λ _, True)); [done| |done].
  intros cd row _. apply principals_step_raises.
Qed.

(** X5. Each index of steps 2 to 5, 6a and 7 is built unless a row of
    its relation lacks a key that the step subscripts: the build of the
    ratings, genres, persons, directors, principals or writers index
    raises if and only if some row of the relation lacks one of its keys,
    wherever the row stands and whatever the other rows are. *)
Theorem index_build_raises_iff_key_missing (pd : gmap string value) :
  (∀ rows, raises (build_ratings rows) ↔ Exists (λ r, ¬ rating_row_ok r) rows) ∧
  (∀ rows, raises (build_genres rows) ↔ Exists (λ r, ¬ genre_row_ok r) rows) ∧
  (∀ rows, raises (build_persons rows) ↔ Exists (λ r, ¬ person_row_ok r) rows) ∧
  (∀ rows, raises (build_credits pd rows) ↔ Exists (λ r, ¬ credit_row_ok r) rows) ∧
  (∀ rows, raises (load_principals pd rows) ↔ Exists (λ r, ¬ credit_row_ok r) rows).
Proof.
  split_and!; intros rows.
  - apply build_ratings_raises.
  - apply build_genres_raises.
  - apply build_persons_raises.
  - apply build_credits_raises.
  - apply load_principals_raises.
Qed.

(** ** Step 6b: which character rows raise *)

Lemma characters_step_raises cd row :
  raises (characters_step cd row) ↔ character_row_raises_in cd row.
Proof.
  unfold characters_step, character_row_raises_in, cast_at.
  destruct (ch_movie_id row) as [m|]; simpl;
    [|split; [done|intros; apply raises_Raise]].
  destruct (cd !! m) as [pm|] eqn:Hcd; simpl;
    [|split; [by intros ?%raises_Ok | by intros [[? [=]] _]]].
  destruct (ch_person_id row) as [p|]; simpl;
    [|split; [intros _; split; [by eexists|done] | intros; apply raises_Raise]].
  destruct (od_get p pm) as [e|] eqn:He; simpl;
    [|split; [by intros ?%raises_Ok | by intros [_ [[? [=]] _]]]].
  destruct (ch_name row) as [c|]; simpl.
  - split; [by intros ?%raises_Ok | by intros [_ [_ [=]]]].
  - split; [intros _; eauto | intros; apply raises_Raise].
Qed.

Lemma od_get_is_Some {V} k (d : list (string * V)) :
  is_Some (od_get k d) ↔ k ∈ od_keys d.
Proof. rewrite <-od_mem_true. unfold od_mem. by rewrite bool_decide_eq_true. Qed.

Lemma same_cast_keys_refl cd0 : same_cast_keys cd0 cd0.
Proof. by intros m. Qed.

Lemma characters_step_same_keys cd0 cd row cd' :
  same_cast_keys cd0 cd → characters_step cd row = Ok cd' → same_cast_keys cd0 cd'.
Proof.
  intros Hcd (m0 & Hm & Hcases)%characters_step_Ok.
  destruct Hcases as [[_ ->]|(p0 & Hp & [(_ & _ & ->)|(e & c & He & Hc & ->)])]; try done.
  intros m. destruct (Hcd m) as [Hdom Hkeys].
  rewrite cast_at_insert. destruct (decide (m = m0)) as [->|Hne].
  - rewrite lookup_insert_eq, od_keys_set_old by eauto. split; [|done].
    rewrite <-Hdom. split; [intros _|by eauto].
    unfold cast_at in He. destruct (cd !! m0); [by eauto|done].
  - by rewrite lookup_insert_ne.
Qed.

Lemma character_row_raises_in_same_keys cd0 cd row :
  same_cast_keys cd0 cd →
  character_row_raises_in cd row ↔ character_row_raises_in cd0 row.
Proof.
  intros Hcd. unfold character_row_raises_in.
  destruct (ch_movie_id row) as [m|]; [|done].
  destruct (Hcd m) as [Hdom Hkeys]. rewrite Hdom.
  destruct (ch_person_id row) as [p|]; [|done].
  assert (is_Some (od_get p (cast_at cd m)) ↔ is_Some (od_get p (cast_at cd0 m))) as ->;
    [|done].
  by rewrite !od_get_is_Some, Hkeys.
Qed.

Lemma add_characters_raises cd0 rows :
  raises (add_characters cd0 rows) ↔ Exists (character_row_raises_in cd0) rows.
Proof.
  apply (for_each_raises _ (same_cast_keys cd0)).
  - intros cd row cd'. apply characters_step_same_keys.
  - intros cd row Hcd. rewrite characters_step_raises.
    by apply character_row_raises_in_same_keys.
  - apply same_cast_keys_refl.
Qed.

(** After step 6a a movie is a key of the cast index exactly when it has
    a principal row. *)
Lemma load_principals_dom pd rows cd m :
  load_principals pd rows = Ok cd →
  is_Some (cd !! m) ↔ credits_of m rows ≠ [].
Proof.
  intros Hrun. revert m.
  loop_invariant (λ pre cd, ∀ m, is_Some (cd !! m) ↔ credits_of m pre ≠ []) from Hrun.
  { intros m. rewrite lookup_empty. split; [by intros [? ?]|done]. }
  intros pre row d d' IH Hstep m.
  assert (∃ m0, cr_movie_id row = Some m0 ∧
            (is_Some (d' !! m) ↔ m = m0 ∨ is_Some (d !! m))) as (m0 & Hm & Hdom).
  { unfold principals_step in Hstep. step_inv Hstep. rename s into m0.
    exists m0. split; [done|].
    set (d1 := if decide (is_Some (d !! m0)) then d else <[m0 := []]> d) in *.
    assert (is_Some (d1 !! m) ↔ m = m0 ∨ is_Some (d !! m)) as Hd1.
    { subst d1. case_decide as Hs.
      - split; [by right|]. by intros [->|?].
      - rewrite lookup_insert_is_Some. split; [intros [->|[_ ?]]; auto|].
        intros [->|?]; [by left|]. destruct (decide (m0 = m)); auto. }
    destruct (od_mem _ _); injection Hstep as <-; [done|].
    rewrite lookup_insert_is_Some, Hd1. split; [intros [->|[_ ?]]; auto|].
    intros [->|?]; [by left|]. destruct (decide (m0 = m)); auto. }
  rewrite Hdom, IH, credits_of_snoc.
  destruct (decide (m = m0)) as [->|Hne].
  - rewrite (decide_True _ _ Hm). split; [intros _|by left].
    by intros [_ [=]]%app_eq_nil.
  - rewrite (decide_False (P := cr_movie_id row = Some m)) by congruence.
    rewrite app_nil_r. split; [by intros [?|?]|by right].
Qed.

Lemma load_principals_member pd rows cd m p :
  load_principals pd rows = Ok cd →
  is_Some (od_get p (cast_at cd m)) ↔ has_credit m p rows.
Proof.
  intros Hrun. destruct (load_principals_cast_at _ _ _ m Hrun) as [Hkeys _].
  rewrite od_get_is_Some, Hkeys, elem_of_first_seen, list_elem_of_omap.
  unfold has_credit, credits_of. split.
  - intros (row & [? ?]%list_elem_of_filter & Hp). by exists row.
  - intros (row & Hin & Hm & Hp). exists row. split; [|done].
    by apply list_elem_of_filter.
Qed.

Lemma character_row_raises_in_principals pd prs cd0 row :
  load_principals pd prs = Ok cd0 →
  character_row_raises_in cd0 row ↔ character_row_bad prs row.
Proof.
  intros Hrun. unfold character_row_raises_in, character_row_bad.
  destruct (ch_movie_id row) as [m|]; [|done].
  rewrite (load_principals_dom _ _ _ m Hrun).
  destruct (ch_person_id row) as [p|]; [|done].
  by rewrite (load_principals_member _ _ _ m p Hrun).
Qed.


(** X6. In step 6b a character row raises only as far as it is read:
    given the cast index that step 6a built from the principals, the step
    raises if and only if some character row has no [movie_id], or is of a
    movie that has principal rows and has no [person_id], or is of a pair
    that has a principal row and has no [name].  A row of a pair without a
    principal is passed over even when it has no name. *)
Theorem characters_pass_raises_iff (pd : gmap string value)
    (principal_rows : list credit_row) (cd0 : gmap string (list (string * cast_entry)))
    (character_rows : list character_row) :
  load_principals pd principal_rows = Ok cd0 →
  raises (add_characters cd0 character_rows) ↔
  Exists (character_row_bad principal_rows) character_rows.
Proof.
  intros Hcd0. rewrite add_characters_raises. split; intros Hbad.
  - eapply Exists_impl; [exact Hbad|]. intros row.
    by apply (character_row_raises_in_principals pd principal_rows cd0 row Hcd0).
  - eapply Exists_impl; [exact Hbad|]. intros row.
    by apply (character_row_raises_in_principals pd principal_rows cd0 row Hcd0).
Qed.

Lemma characters_pass_raises_iff_witness :
  load_principals ∅ [credit "m1" "p1"; credit "m1" "p2"] = Ok sample_cast_dict ∧
  (raises (add_characters sample_cast_dict [nameless_character "m1" "p2"]) ↔
   Exists (character_row_bad [credit "m1" "p1"; credit "m1" "p2"])
     [nameless_character "m1" "p2"]) ∧
  add_characters sample_cast_dict
    [nameless_character "m1" "p3"; nameless_character "m3" "p1"] = Ok sample_cast_dict ∧
  add_characters sample_cast_dict [nameless_character "m1" "p2"] = Raise (KeyError "name").
Proof.
  assert (load_principals ∅ [credit "m1" "p1"; credit "m1" "p2"] = Ok sample_cast_dict)
    as Hcd0 by reflexivity.
  split; [exact Hcd0|].
  split; [exact (characters_pass_raises_iff _ _ _ _ Hcd0)|].
  split; reflexivity.
Defined.

(** ** When the run raises *)








(** ** The keys of the indices *)

Lemma size_distinct {V} (d : gmap string V) (ids : list string) :
  (∀ m, is_Some (d !! m) ↔ m ∈ ids) → size d = distinct ids.
Proof.
  intros Hkeys. unfold distinct.
  rewrite <-(size_dom (D := gset string)).
  rewrite <-(size_list_to_set (C := gset string) (remove_dups ids))
    by apply NoDup_remove_dups.
  f_equal. apply set_eq. intros m.
  by rewrite elem_of_dom, Hkeys, elem_of_list_to_set, elem_of_remove_dups.
Qed.

Lemma build_genres_keys rows gd m :
  build_genres rows = Ok gd → is_Some (gd !! m) ↔ m ∈ omap gn_movie_id rows.
Proof.
  intros Hrun. revert m.
  loop_invariant (λ pre gd, ∀ m, is_Some (gd !! m) ↔ m ∈ omap gn_movie_id pre) from Hrun.
  { intros m. rewrite lookup_empty. split; [by intros [? ?]|by intros ?%elem_of_nil]. }
  intros pre row d d' IH (m0 & g & Hm & Hg & ->)%genres_step_Ok m.
  rewrite lookup_insert_is_Some, omap_app, elem_of_app, IH. simpl. rewrite Hm. simpl.
  rewrite list_elem_of_singleton. split.
  - intros [-> | [_ ?] ]; auto.
  - intros [?| ->]; [|by left]. destruct (decide (m0 = m)); auto.
Qed.

Lemma build_credits_keys pd rows cd m :
  build_credits pd rows = Ok cd → is_Some (cd !! m) ↔ m ∈ omap cr_movie_id rows.
Proof.
  intros Hrun. revert m.
  loop_invariant (λ pre cd, ∀ m, is_Some (cd !! m) ↔ m ∈ omap cr_movie_id pre) from Hrun.
  { intros m. rewrite lookup_empty. split; [by intros [? ?]|by intros ?%elem_of_nil]. }
  intros pre row d d' IH (m0 & p & Hm & Hp & ->)%credits_step_Ok m.
  rewrite lookup_insert_is_Some, omap_app, elem_of_app, IH. simpl. rewrite Hm. simpl.
  rewrite list_elem_of_singleton. split.
  - intros [-> | [_ ?] ]; auto.
  - intros [?| ->]; [|by left]. destruct (decide (m0 = m)); auto.
Qed.

Lemma credits_of_nonempty m rows : credits_of m rows ≠ [] ↔ m ∈ omap cr_movie_id rows.
Proof.
  rewrite list_elem_of_omap. unfold credits_of. split.
  - destruct (filter _ rows) as [|row l] eqn:E; [done|]. intros _.
    assert (row ∈ filter (λ c, cr_movie_id c = Some m) rows) as Hin by (rewrite E; left).
    apply list_elem_of_filter in Hin as [? ?]. by exists row.
  - intros (row & Hin & Hm) E.
    assert (row ∈ filter (λ c, cr_movie_id c = Some m) rows) as Hin'
      by by apply list_elem_of_filter.
    rewrite E in Hin'. by apply elem_of_nil in Hin'.
Qed.

Lemma add_characters_same_keys cd0 rows cd :
  add_characters cd0 rows = Ok cd → same_cast_keys cd0 cd.
Proof.
  intros Hrun.
  loop_invariant (λ _ cd, same_cast_keys cd0 cd) from Hrun;
    [apply same_cast_keys_refl|].
  intros pre row d d' IH Hstep. by eapply characters_step_same_keys.
Qed.

Lemma build_cast_keys pd prs chs cd m :
  build_cast pd prs chs = Ok cd → is_Some (cd !! m) ↔ m ∈ omap cr_movie_id prs.
Proof.
  intros (cd0 & H1 & H2)%build_cast_Ok.
  destruct (add_characters_same_keys _ _ _ H2 m) as [Hdom _].
  by rewrite Hdom, (load_principals_dom _ _ _ m H1), credits_of_nonempty.
Qed.

(** X8. The counts that a run prints at its end: the number of films is
    the number of movie rows, and the numbers of films with genres, with
    directors, with actors and with writers are the numbers of distinct
    movie ids in the genres, directors, principals and writers relations,
    whether or not a movie row has the id. *)
Theorem statistics_count_movie_ids (src : source) (st : statistics) :
  build_statistics src = Ok st →
  films st = length (movies src) ∧
  films_with_genres st = distinct (omap gn_movie_id (genres src)) ∧
  films_with_directors st = distinct (omap cr_movie_id (directors src)) ∧
  films_with_cast st = distinct (omap cr_movie_id (principals src)) ∧
  films_with_writers st = distinct (omap cr_movie_id (writers src)).
Proof.
  unfold build_statistics.
  intros (idx & Hidx & (docs & Hdocs & [= <-])%bind_Ok)%bind_Ok. simpl.
  apply build_indices_Ok in Hidx as (_ & Hg & _ & Hd & Hc & Hw).
  split_and!.
  - by apply assemble_length in Hdocs.
  - apply size_distinct. intros m. by apply build_genres_keys.
  - apply size_distinct. intros m. by eapply build_credits_keys.
  - apply size_distinct. intros m. by eapply build_cast_keys.
  - apply size_distinct. intros m. by eapply build_credits_keys.
Qed.

Lemma statistics_count_movie_ids_witness :
  build_statistics alpha_beta_source
    = Ok {| films := 2; films_with_genres := 3; films_with_directors := 2;
            films_with_cast := 2; films_with_writers := 1 |} ∧
  2 = length (movies alpha_beta_source) ∧
  3 = distinct (omap gn_movie_id (genres alpha_beta_source)) ∧
  2 = distinct (omap cr_movie_id (directors alpha_beta_source)) ∧
  2 = distinct (omap cr_movie_id (principals alpha_beta_source)) ∧
  1 = distinct (omap cr_movie_id (writers alpha_beta_source)).
Proof.
  assert (build_statistics alpha_beta_source
    = Ok {| films := 2; films_with_genres := 3; films_with_directors := 2;
            films_with_cast := 2; films_with_writers := 1 |}) as Hrun.
  { vm_compute. reflexivity. }
  split; [exact Hrun|]. exact (statistics_count_movie_ids _ _ Hrun).
Defined.

(** ** A document and the rows of its movie *)

Lemma characters_of_movie_person m p rows :
  characters_of m p rows
  = filter (λ c, ch_person_id c = Some p) (characters_of_movie m rows).
Proof.
  unfold characters_of, characters_of_movie. rewrite list_filter_filter.
  apply list_filter_iff. intros c. tauto.
Qed.

Lemma cast_of_same_rows pd m prs1 prs2 chs1 chs2 :
  credits_of m prs1 = credits_of m prs2 →
  characters_of_movie m chs1 = characters_of_movie m chs2 →
  cast_of pd m prs1 chs1 = cast_of pd m prs2 chs2.
Proof.
  intros Hprs Hchs. unfold cast_of. rewrite Hprs. apply list_fmap_ext.
  intros _ p _. by rewrite !characters_of_movie_person, Hchs.
Qed.

(** X9. The document of a movie depends on the rows of that movie and on
    the persons, and on nothing else: two sources with the same persons
    and, for the id of a movie row, the same rating, genre, director,
    principal, character and writer rows, give that movie row the same
    document, whatever rows they hold for other movies. *)
Theorem document_depends_on_own_rows (src1 src2 : source)
    (docs1 docs2 : list complete_doc) (i j : nat) (movie : movie_row)
    (d1 d2 : complete_doc) :
  build_documents src1 = Ok docs1 →
  build_documents src2 = Ok docs2 →
  movies src1 !! i = Some movie → docs1 !! i = Some d1 →
  movies src2 !! j = Some movie → docs2 !! j = Some d2 →
  same_rows_of (doc_id d1) src1 src2 →
  d1 = d2.
Proof.
  intros (idx1 & Hidx1 & Hall1)%build_documents_Ok
         (idx2 & Hidx2 & Hall2)%build_documents_Ok Hm1 Hd1 Hm2 Hd2.
  destruct (Forall2_lookup_l _ _ _ _ _ Hall1 Hm1) as (d1' & Hd1' & Hdoc1).
  destruct (Forall2_lookup_l _ _ _ _ _ Hall2 Hm2) as (d2' & Hd2' & Hdoc2).
  assert (d1' = d1) as -> by congruence. assert (d2' = d2) as -> by congruence.
  pose proof (document_fields _ _ _ _ Hidx1 Hdoc1)
    as (Hid1 & Ht1 & Hy1 & Hrt1 & Hr1 & Hg1 & Hdir1 & Hc1 & Hw1).
  pose proof (document_fields _ _ _ _ Hidx2 Hdoc2)
    as (Hid2 & Ht2 & Hy2 & Hrt2 & Hr2 & Hg2 & Hdir2 & Hc2 & Hw2).
  assert (doc_id d2 = doc_id d1) as Hid by congruence.
  rewrite Hid in Hr2, Hg2, Hdir2, Hc2, Hw2.
  intros (Hps & Hrs & Hgs & Hds & Hprs & Hchs & Hws).
  apply build_indices_Ok in Hidx1 as (_ & _ & Hp1 & _).
  apply build_indices_Ok in Hidx2 as (_ & _ & Hp2 & _).
  assert (persons_dict idx2 = persons_dict idx1) as Hpd by congruence.
  rewrite Hpd in *.
  simpl in *.
  assert (doc_genres d1 = doc_genres d2) as Hg
    by (apply (inj (fmap Some)); congruence).
  assert (doc_directors d1 = doc_directors d2) as Hdir
    by (apply (inj (fmap Some)); congruence).
  assert (doc_writers d1 = doc_writers d2) as Hw
    by (apply (inj (fmap Some)); congruence).
  assert (doc_cast d1 = doc_cast d2) as Hc.
  { rewrite Hc1, Hc2. by apply cast_of_same_rows. }
  assert (doc_rating d1 = doc_rating d2) as Hr by (rewrite Hr1, Hr2; congruence).
  assert (doc_title d1 = doc_title d2) as Ht by congruence.
  assert (doc_year d1 = doc_year d2) as Hy by congruence.
  assert (doc_runtime d1 = doc_runtime d2) as Hrt by congruence.
  destruct d1, d2; simpl in *. congruence.
Qed.

Lemma document_depends_on_own_rows_witness :
  build_documents alpha_source = Ok [alpha_doc] ∧
  build_documents alpha_beta_source = Ok [alpha_doc; beta_doc] ∧
  same_rows_of "m1" alpha_source alpha_beta_source ∧
  [alpha_doc] !! 0 = [alpha_doc; beta_doc] !! 0.
Proof.
  assert (build_documents alpha_source = Ok [alpha_doc]) as H1 by reflexivity.
  assert (build_documents alpha_beta_source = Ok [alpha_doc; beta_doc]) as H2
    by reflexivity.
  assert (same_rows_of "m1" alpha_source alpha_beta_source) as Hsame.
  { repeat split. }
  split; [exact H1|]. split; [exact H2|]. split; [exact Hsame|].
  apply (f_equal Some).
  exact (document_depends_on_own_rows alpha_source alpha_beta_source _ _ 0 0
           (movie "m1" "Alpha" 2000 100) alpha_doc alpha_doc
           H1 H2 eq_refl eq_refl eq_refl eq_refl Hsame).
Defined.

(** ** The insertion loop *)








